(** * SlicerCaseIterator: the case iterator of the table-driven batch

  A shallow embedding of [SlicerCaseIteratorLib]:
  - [IteratorFactory.py]: the registry of iterator widgets;
  - [IteratorBase.py]: the listener list and the iterator base class;
  - [CsvTableIterator.py]: [CaseTableIteratorLogic] (path resolution,
    [loadCase], [closeCase], [getCaseData]) and the save-name choice of
    [CsvTableEventHandler.saveMask].

  Python's [os.path] (the POSIX flavour, [posixpath]) and the few host
  calls of 3D Slicer the code relies on are modelled next to the code
  that uses them. *)

From Stdlib Require Import ZArith Ascii String.
From stdpp Require Import gmap strings list pretty.

Open Scope string_scope.
Open Scope list_scope.

(** ** Strings as Python uses them *)

Module pystr.

(** [s.startswith(p)] *)
Fixpoint startswith (p s : string) : bool :=
  match p, s with
  | "", _ => true
  | String a p', String b s' => bool_decide (a = b) && startswith p' s'
  | String _ _, "" => false
  end.

(** [s.endswith(p)] *)
Definition endswith (p s : string) : bool :=
  startswith (String.rev p) (String.rev s).

(** [s.rfind(c)] for a one-character [c]: the last index of [c], or
    [None] where Python answers [-1]. *)
Fixpoint rfind_from (c : ascii) (s : string) (i : nat) (found : option nat)
  : option nat :=
  match s with
  | "" => found
  | String d s' =>
      rfind_from c s' (S i) (if bool_decide (d = c) then Some i else found)
  end.

Definition rfind (c : ascii) (s : string) : option nat :=
  rfind_from c s 0 None.

(** [s[:n]] and [s[n:]] *)
Fixpoint take (n : nat) (s : string) : string :=
  match n, s with
  | S n', String c s' => String c (take n' s')
  | _, _ => ""
  end.

Fixpoint drop (n : nat) (s : string) : string :=
  match n, s with
  | S n', String _ s' => drop n' s'
  | _, _ => s
  end.

(** [s.split(c)]: never empty, [""] splits into [[""]]. *)
Fixpoint split (c : ascii) (s : string) : list string :=
  match s with
  | "" => [""]
  | String d s' =>
      if bool_decide (d = c) then "" :: split c s'
      else match split c s' with
           | w :: ws => String d w :: ws
           | [] => [String d ""]
           end
  end.

(** [c.join(l)] *)
Fixpoint join (c : ascii) (l : list string) : string :=
  match l with
  | [] => ""
  | [w] => w
  | w :: ws => w +:+ String c (join c ws)
  end.

(** [s.lstrip(c)] and [s.rstrip(c)] *)
Fixpoint lstrip (c : ascii) (s : string) : string :=
  match s with
  | String d s' => if bool_decide (d = c) then lstrip c s' else s
  | "" => ""
  end.

Definition rstrip (c : ascii) (s : string) : string :=
  String.rev (lstrip c (String.rev s)).

(** every character of [s] is [c] *)
Fixpoint all_chars (c : ascii) (s : string) : bool :=
  match s with
  | "" => true
  | String d s' => bool_decide (d = c) && all_chars c s'
  end.

(** [c in s] *)
Fixpoint contains (c : ascii) (s : string) : bool :=
  match s with
  | "" => false
  | String d s' => bool_decide (d = c) || contains c s'
  end.

(** ASCII white space, as [str.strip()] sees it. *)
Definition is_space (c : ascii) : bool :=
  bool_decide (c ∈ [" "; "009"; "010"; "011"; "012"; "013";
                    "028"; "029"; "030"; "031"]%char).

Fixpoint lstrip_space (s : string) : string :=
  match s with
  | String c s' => if is_space c then lstrip_space s' else s
  | "" => ""
  end.

(** [s.strip()], for ASCII text *)
Definition strip (s : string) : string :=
  String.rev (lstrip_space (String.rev (lstrip_space s))).

End pystr.

(** ** [os.path] on POSIX *)

Module ospath.

Definition sep : ascii := "/"%char.
Definition extsep : ascii := "."%char.

(** [os.path.isabs] *)
Definition isabs (s : string) : bool := pystr.startswith "/" s.

(** [os.path.join(a, b)] *)
Definition join (a b : string) : string :=
  if pystr.startswith "/" b then b
  else if bool_decide (a = "") || pystr.endswith "/" a then a +:+ b
  else a +:+ "/" +:+ b.

(** One round of the loop of [normpath] over the components. *)
Definition norm_step (initial_slashes : nat) (new_comps : list string)
    (comp : string) : list string :=
  if bool_decide (comp = "") || bool_decide (comp = ".") then new_comps
  else if negb (bool_decide (comp = ".."))
          || (bool_decide (initial_slashes = 0) && bool_decide (new_comps = []))
          || bool_decide (last new_comps = Some "..")
       then new_comps ++ [comp]
       else removelast new_comps.

(** [os.path.normpath] *)
Definition normpath (path : string) : string :=
  if bool_decide (path = "") then "."
  else
    let initial_slashes :=
      if pystr.startswith "/" path then
        if pystr.startswith "//" path && negb (pystr.startswith "///" path)
        then 2 else 1
      else 0 in
    let comps := foldl (norm_step initial_slashes) [] (pystr.split sep path) in
    let body := pystr.join sep comps in
    let res :=
      match initial_slashes with
      | 0 => body
      | 1 => "/" +:+ body
      | _ => "//" +:+ body
      end in
    if bool_decide (res = "") then "." else res.

(** [os.path.abspath], with the working directory of the process. *)
Definition abspath (cwd path : string) : string :=
  normpath (if isabs path then path else join cwd path).

(** the index behind the last separator: [p.rfind(sep) + 1] *)
Definition after_sep (p : string) : nat :=
  match pystr.rfind sep p with
  | Some i => S i
  | None => 0
  end.

(** [os.path.basename] *)
Definition basename (p : string) : string := pystr.drop (after_sep p) p.

(** [os.path.dirname] *)
Definition dirname (p : string) : string :=
  let head := pystr.take (after_sep p) p in
  if negb (bool_decide (head = "")) && negb (pystr.all_chars sep head)
  then pystr.rstrip sep head else head.

(** [os.path.splitext]: the extension starts at the last dot of the last
    component, leading dots of that component apart. *)
Definition splitext (p : string) : string * string :=
  match pystr.rfind extsep p with
  | Some dotIndex =>
      let filenameIndex := after_sep p in
      if bool_decide (filenameIndex <= dotIndex)
         && negb (pystr.all_chars extsep
                    (pystr.take (dotIndex - filenameIndex)
                       (pystr.drop filenameIndex p)))
      then (pystr.take dotIndex p, pystr.drop dotIndex p)
      else (p, "")
  | None => (p, "")
  end.

End ospath.

(** ** The host: MRML nodes, the scene, the table *)

Inductive node_class :=
  | vtkMRMLScalarVolumeNode
  | vtkMRMLLabelMapVolumeNode
  | vtkMRMLSegmentationNode.

(** The storage node of a data node; [GetFileName] is [None] until a file
    name is set. The model keeps it with the node it serves. *)
Record storage_node := { GetFileName : option string }.

Record node := {
  GetID : string;
  GetClassName : node_class;
  GetName : string;
  GetStorageNode : option storage_node;
  (** the volume a segmentation takes its geometry from, by identifier *)
  ReferenceImageGeometry : option string;
}.

Definition SetName (name : string) (n : node) : node :=
  {| GetID := GetID n; GetClassName := GetClassName n; GetName := name;
     GetStorageNode := GetStorageNode n;
     ReferenceImageGeometry := ReferenceImageGeometry n |}.

Definition SetStorageFileName (f : string) (n : node) : node :=
  {| GetID := GetID n; GetClassName := GetClassName n; GetName := GetName n;
     GetStorageNode := Some {| GetFileName := Some f |};
     ReferenceImageGeometry := ReferenceImageGeometry n |}.

(** [slicer.mrmlScene]: the nodes, in the order they were added. *)
Definition scene := list node.

(** [mrmlScene.GetNodeByID]: [None] when no node has the identifier. *)
Definition GetNodeByID (sc : scene) (nodeID : string) : option node :=
  List.find (fun n => bool_decide (GetID n = nodeID)) sc.

(** [mrmlScene.RemoveNode] of the node with this identifier. *)
Definition RemoveNode (nodeID : string) (sc : scene) : scene :=
  List.filter (fun n => negb (bool_decide (GetID n = nodeID))) sc.

(** [IteratorLogicBase.removeNodeByID]: look the node up, remove it when it
    is there. *)
Definition removeNodeByID (nodeID : string) (sc : scene) : scene :=
  match GetNodeByID sc nodeID with
  | Some n => RemoveNode (GetID n) sc
  | None => sc
  end.

(** A column of the table ([vtkStringArray]) and the table itself. *)
Definition column := list string.

Definition GetValue (col : column) (idx : Z) : string :=
  nth (Z.to_nat idx) col "".

Record vtkTable := {
  table_columns : list (string * column);
  GetNumberOfRows : Z;
}.

Definition GetColumnByName (t : vtkTable) (name : string) : option column :=
  snd <$> List.find (fun c => bool_decide (fst c = name)) (table_columns t).

(** The table node: the table and the file it was read from, if any. *)
Record vtkMRMLTableNode := {
  GetTable : vtkTable;
  table_storage : option storage_node;
}.

(** ** Listeners and the text of the case record *)

(** A registered listener object, by identity. *)
Definition listener := nat.

(** The dict [loadCase] writes as the parameter ["CaseData"]. *)
Record case_record := {
  InputImage_ID : string;
  InputMask_ID : string;
  Additional_InputImage_IDs : list string;
  Additional_InputMask_IDs : list string;
}.

(** The text of the parameter ["CaseData"] of the parameter node, by what
    it reads back as. [GetParameter] answers [""] for a parameter that was
    never set, also on a parameter node created on first use. The text
    [loadCase] writes is [str] of a dict of strings and lists of strings,
    which [eval] and [ast.literal_eval] both read back as that dict.
    [TextOther] stands for any other non-empty text: one that is no Python
    literal, or whose value is no dict of strings and lists of strings
    under the four keys. *)
Inductive param_text :=
  | TextEmpty
  | TextOf (d : case_record)
  | TextOther.

Inductive event_kind := CaseLoaded | CaseAboutToClose.

(** One call of a listener: which callback, on which listener, and the
    text of the case record the parameter node held at the call. *)
Record event := {
  ev_kind : event_kind;
  ev_listener : listener;
  ev_record : param_text;
}.

#[global] Instance node_class_eq_dec : EqDecision node_class.
Proof. solve_decision. Defined.
#[global] Instance storage_node_eq_dec : EqDecision storage_node.
Proof. solve_decision. Defined.
#[global] Instance node_eq_dec : EqDecision node.
Proof. solve_decision. Defined.
#[global] Instance case_record_eq_dec : EqDecision case_record.
Proof. solve_decision. Defined.
#[global] Instance param_text_eq_dec : EqDecision param_text.
Proof. solve_decision. Defined.
#[global] Instance event_kind_eq_dec : EqDecision event_kind.
Proof. solve_decision. Defined.
#[global] Instance event_eq_dec : EqDecision event.
Proof. solve_decision. Defined.

(** What the code asks of its surroundings: the file system, the loaders
    of the host, the identifier the scene gives a node it adds, and how a
    listener's callback ends. *)
Record Host := {
  isfile : string -> bool;
  getcwd : string;
  loadVolume_ok : string -> bool;
  loadSegmentation_ok : string -> bool;
  loadLabelVolume_ok : string -> bool;
  ImportLabelmapToSegmentationNode_ok : string -> bool;
  newNodeID : scene -> node_class -> string;
  callback_raises : event -> bool;
}.

(** ** Exceptions and the state the iterator works on *)

Inductive exn :=
  | AssertionError (msg : string)
  | AttributeError (msg : string)
  | TypeError (msg : string)
  | ValueError (msg : string)
  | FileNotFoundError
  | FileExistsError
  (** whatever [ast.literal_eval] or the subscripts raise on a text that
      is no case record *)
  | CaseDataError
  (** the exception a listener's callback let escape *)
  | ListenerError (ev : event).

Inductive result (A : Type) :=
  | Return (a : A)
  | Raise (e : exn).
Arguments Return {A} a.
Arguments Raise {A} e.

(** [self.caseColumns]: the columns found for each key; a key that is
    absent or bound to [None] reads as [None]. *)
Record case_columns := {
  col_patient : option column;
  col_root : option column;
  col_image : option column;
  col_mask : option column;
  col_additionalImages : list column;
  col_additionalMasks : list column;
}.

(** The iterator object, the scene it works in, and the callbacks called
    so far (oldest first). *)
Record state := {
  csv_dir : option string;
  caseColumns : case_columns;
  caseCount : Z;
  currentIdx : option Z;
  _eventListeners : list listener;
  mrmlScene : scene;
  CaseData : param_text;
  calls : list event;
}.

Definition set_currentIdx (i : option Z) (s : state) : state :=
  {| csv_dir := csv_dir s; caseColumns := caseColumns s;
     caseCount := caseCount s; currentIdx := i;
     _eventListeners := _eventListeners s; mrmlScene := mrmlScene s;
     CaseData := CaseData s; calls := calls s |}.

Definition set_eventListeners (ls : list listener) (s : state) : state :=
  {| csv_dir := csv_dir s; caseColumns := caseColumns s;
     caseCount := caseCount s; currentIdx := currentIdx s;
     _eventListeners := ls; mrmlScene := mrmlScene s;
     CaseData := CaseData s; calls := calls s |}.

Definition set_mrmlScene (sc : scene) (s : state) : state :=
  {| csv_dir := csv_dir s; caseColumns := caseColumns s;
     caseCount := caseCount s; currentIdx := currentIdx s;
     _eventListeners := _eventListeners s; mrmlScene := sc;
     CaseData := CaseData s; calls := calls s |}.

Definition set_CaseData (t : param_text) (s : state) : state :=
  {| csv_dir := csv_dir s; caseColumns := caseColumns s;
     caseCount := caseCount s; currentIdx := currentIdx s;
     _eventListeners := _eventListeners s; mrmlScene := mrmlScene s;
     CaseData := t; calls := calls s |}.

Definition set_calls (evs : list event) (s : state) : state :=
  {| csv_dir := csv_dir s; caseColumns := caseColumns s;
     caseCount := caseCount s; currentIdx := currentIdx s;
     _eventListeners := _eventListeners s; mrmlScene := mrmlScene s;
     CaseData := CaseData s; calls := evs |}.

Definition add_call (ev : event) (s : state) : state :=
  set_calls (calls s ++ [ev]) s.

(** A method: it runs on a state, returns or raises, and leaves a state.
    What was changed before an exception stays changed. *)
Definition M (A : Type) : Type := state -> result A * state.

#[global] Instance M_ret : MRet M := fun A a s => (Return a, s).
#[global] Instance M_bind : MBind M := fun A B f m s =>
  match m s with
  | (Return a, s') => f a s'
  | (Raise e, s') => (Raise e, s')
  end.

Definition raise {A} (e : exn) : M A := fun s => (Raise e, s).
Definition get_state : M state := fun s => (Return s, s).
Definition modify (f : state -> state) : M unit := fun s => (Return tt, f s).

(** [assert cond, msg] *)
Definition assert (cond : bool) (msg : string) : M unit :=
  if cond then mret tt else raise (AssertionError msg).

(** ** [IteratorBase.py]: the listener list *)

(** [IteratorLogicBase.registerEventListener] *)
Definition registerEventListener (l : listener) : M unit :=
  s ← get_state;
  if bool_decide (l ∈ _eventListeners s) then mret tt
  else modify (set_eventListeners (_eventListeners s ++ [l])).

(** ** [CsvTableIterator.py]: the column map and the constructor *)

(** The dict [_parseConfig] builds; an absent key is [None]. *)
Record column_map := {
  map_root : option string;
  map_image : option string;
  map_mask : option string;
  map_additionalImages : option (list string);
  map_additionalMasks : option (list string);
}.

Definition dquote : string := String "034"%char "".

Definition unable_to_find (name key : string) : string :=
  "Unable to find column " +:+ dquote +:+ name +:+ dquote
  +:+ " (key " +:+ key +:+ ")".

(** [getColumn(key)] of [_getColumns] *)
Definition getColumn (t : vtkTable) (key : string) (name : option string)
  : result (option column) :=
  match name with
  | None => Return None
  | Some name =>
      match GetColumnByName t name with
      | Some col => Return (Some col)
      | None => Raise (AssertionError (unable_to_find name key))
      end
  end.

(** the loop of [getListColumn(key)] *)
Fixpoint getListColumn_loop (t : vtkTable) (key : string) (names : list string)
  : result (list column) :=
  match names with
  | [] => Return []
  | c_key :: names' =>
      match GetColumnByName t c_key with
      | None => Raise (AssertionError (unable_to_find c_key key))
      | Some col =>
          match getListColumn_loop t key names' with
          | Return cols => Return (col :: cols)
          | Raise e => Raise e
          end
      end
  end.

Definition getListColumn (t : vtkTable) (key : string)
    (names : option (list string)) : result (list column) :=
  match names with
  | None => Return []
  | Some names => getListColumn_loop t key names
  end.

(** [CaseTableIteratorLogic._getColumns] *)
Definition _getColumns (t : vtkTable) (columnMap : column_map)
  : result case_columns :=
  let patientColumn :=
    match GetColumnByName t "patient" with
    | Some c => Some c
    | None => GetColumnByName t "ID"
    end in
  match getColumn t "root" (map_root columnMap) with
  | Raise e => Raise e
  | Return root =>
  match getColumn t "image" (map_image columnMap) with
  | Raise e => Raise e
  | Return image =>
  match getColumn t "mask" (map_mask columnMap) with
  | Raise e => Raise e
  | Return mask =>
  match getListColumn t "additionalImages" (map_additionalImages columnMap) with
  | Raise e => Raise e
  | Return additionalImages =>
  match getListColumn t "additionalMasks" (map_additionalMasks columnMap) with
  | Raise e => Raise e
  | Return additionalMasks =>
      Return {| col_patient := patientColumn; col_root := root;
                col_image := image; col_mask := mask;
                col_additionalImages := additionalImages;
                col_additionalMasks := additionalMasks |}
  end end end end end.

(** [CaseTableIteratorLogic.__init__], in a scene [sc] whose parameter node
    holds [text]. *)
Definition CaseTableIteratorLogic (tableNode : option vtkMRMLTableNode)
    (columnMap : column_map) (sc : scene) (text : param_text) : result state :=
  match tableNode with
  | None => Raise (AssertionError "No table selected! Cannot instantiate batch")
  | Some tableNode =>
      let dir :=
        match table_storage tableNode with
        | Some {| GetFileName := Some f |} => Some (ospath.dirname f)
        | _ => None
        end in
      let batchTable := GetTable tableNode in
      match _getColumns batchTable columnMap with
      | Raise e => Raise e
      | Return cols =>
          Return {| csv_dir := dir; caseColumns := cols;
                    caseCount := GetNumberOfRows batchTable;
                    currentIdx := None; _eventListeners := [];
                    mrmlScene := sc; CaseData := text; calls := [] |}
      end
  end.

(** ** [CsvTableIterator.py]: the iterator logic *)

Section Logic.

Context (H : Host).

(** [IteratorEventListenerList.caseLoaded] and [.caseAboutToClose]: call
    the listeners in the order of the list; an exception of a callback
    ends the loop and goes up. *)
Fixpoint notify (kind : event_kind) (ls : list listener) : M unit :=
  match ls with
  | [] => mret tt
  | l :: ls' =>
      s ← get_state;
      let ev := {| ev_kind := kind; ev_listener := l;
                   ev_record := CaseData s |} in
      modify (add_call ev);;
      if callback_raises H ev then raise (ListenerError ev)
      else notify kind ls'
  end.

Definition caseLoaded : M unit :=
  s ← get_state; notify CaseLoaded (_eventListeners s).

Definition caseAboutToClose : M unit :=
  s ← get_state; notify CaseAboutToClose (_eventListeners s).

(** The column bound to a key that holds one column. *)
Definition single_column (cc : case_columns) (colName : string)
  : option column :=
  if bool_decide (colName = "patient") then col_patient cc
  else if bool_decide (colName = "root") then col_root cc
  else if bool_decide (colName = "image") then col_image cc
  else if bool_decide (colName = "mask") then col_mask cc
  else None.

(** The columns bound to a key that holds a list of columns. *)
Definition list_columns (cc : case_columns) (colName : string)
  : list column :=
  if bool_decide (colName = "additionalImages") then col_additionalImages cc
  else if bool_decide (colName = "additionalMasks") then col_additionalMasks cc
  else [].

(** [_getColumnValue(colName, idx)] *)
Definition _getColumnValue (s : state) (colName : string) (idx : Z)
  : option string :=
  match single_column (caseColumns s) colName with
  | None => None
  | Some col => Some (GetValue col idx)
  end.

(** [_getColumnValue(colName, idx, True)] *)
Definition _getColumnValue_list (s : state) (colName : string) (idx : Z)
  : list string :=
  (fun col => GetValue col idx) <$> list_columns (caseColumns s) colName.

(** [_buildPath(caseRoot, fname)] *)
Definition _buildPath (s : state) (caseRoot fname : option string)
  : option string :=
  match fname with
  | None => None
  | Some fname =>
      if bool_decide (fname = "") then None
      else if ospath.isabs fname then Some fname
      else
        let with_csv_dir (fname : string) :=
          let fname :=
            match csv_dir s with
            | Some d => ospath.join d fname
            | None => fname
            end in
          Some (ospath.abspath (getcwd H) fname) in
        match caseRoot with
        | Some caseRoot =>
            let fname := ospath.join caseRoot fname in
            if ospath.isabs fname then Some fname else with_csv_dir fname
        | None => with_csv_dir fname
        end
  end.

(** The scene adds a node and gives it its identifier. *)
Definition AddNode (cls : node_class) (storage : option storage_node) : M node :=
  fun s =>
    let n := {| GetID := newNodeID H (mrmlScene s) cls; GetClassName := cls;
                GetName := ""; GetStorageNode := storage;
                ReferenceImageGeometry := None |} in
    (Return n, set_mrmlScene (mrmlScene s ++ [n]) s).

(** A change of the node [n] of the scene; answers the node as changed. *)
Definition update_node (f : node -> node) (n : node) : M node :=
  fun s =>
    (Return (f n),
     set_mrmlScene
       ((fun m => if bool_decide (GetID m = GetID n) then f m else m)
          <$> mrmlScene s) s).

(** [_loadImageNode(root, fname)] *)
Definition _loadImageNode (root fname : option string) : M (option node) :=
  s ← get_state;
  match _buildPath s root fname with
  | None => mret None
  | Some im_path =>
      if negb (isfile H im_path) then mret None
      else if negb (loadVolume_ok H im_path) then mret None
      else
        im_node ← AddNode vtkMRMLScalarVolumeNode
                    (Some {| GetFileName := Some im_path |});
        im_node ← update_node
                    (SetName (ospath.splitext (ospath.basename im_path)).1)
                    im_node;
        mret (Some im_node)
  end.

Definition SetReferenceImageGeometry (ref_im : option node) (n : node) : node :=
  {| GetID := GetID n; GetClassName := GetClassName n; GetName := GetName n;
     GetStorageNode := GetStorageNode n;
     ReferenceImageGeometry := GetID <$> ref_im |}.

(** [_loadMaskNode(root, fname, ref_im)] *)
Definition _loadMaskNode (root fname : option string) (ref_im : option node)
  : M (option node) :=
  s ← get_state;
  match _buildPath s root fname with
  | None => mret None
  | Some ma_path =>
      if negb (isfile H ma_path) then mret None
      else
        let isSegmentation :=
          pystr.endswith ".seg" (ospath.splitext ma_path).1 in
        '(load_success, ma_node) ←
          (if isSegmentation then
             if loadSegmentation_ok H ma_path then
               n ← AddNode vtkMRMLSegmentationNode
                     (Some {| GetFileName := Some ma_path |});
               mret (true, Some n)
             else mret (false, None)
           else
             if loadLabelVolume_ok H ma_path then
               ma_node ← AddNode vtkMRMLLabelMapVolumeNode
                           (Some {| GetFileName := Some ma_path |});
               seg_node ← AddNode vtkMRMLSegmentationNode None;
               seg_node ← update_node (SetReferenceImageGeometry ref_im)
                            seg_node;
               let load_success :=
                 ImportLabelmapToSegmentationNode_ok H ma_path in
               modify (fun s => set_mrmlScene
                                  (RemoveNode (GetID ma_node) (mrmlScene s)) s);;
               let '(file_base, ext) := ospath.splitext ma_path in
               seg_node ← update_node
                            (SetStorageFileName (file_base +:+ ".seg" +:+ ext))
                            seg_node;
               mret (load_success, Some seg_node)
             else mret (false, None));
        if negb load_success then mret None
        else
          match ma_node with
          | None => mret None
          | Some ma_node =>
              let file_base := (ospath.splitext (ospath.basename ma_path)).1 in
              let file_base :=
                if isSegmentation then (ospath.splitext file_base).1
                else file_base in
              ma_node ← update_node (SetName file_base) ma_node;
              mret (Some ma_node)
          end
  end.

(** the loops of [loadCase] over the additional images and masks *)
Fixpoint load_additional (load : option string -> M (option node))
    (fnames : list string) : M (list node) :=
  match fnames with
  | [] => mret []
  | f :: fnames' =>
      add_node ← load (Some f);
      rest ← load_additional load fnames';
      mret (match add_node with
            | Some n => n :: rest
            | None => rest
            end)
  end.

(** Lines 475 to 480 of [closeCase]: the removals, in their order. *)
Definition remove_case_nodes (caseData : case_record) (sc : scene) : scene :=
  let sc := removeNodeByID (InputImage_ID caseData) sc in
  let sc :=
    if bool_decide (InputMask_ID caseData ≠ "")
    then removeNodeByID (InputMask_ID caseData) sc else sc in
  let sc :=
    foldl (fun sc nodeID => removeNodeByID nodeID sc) sc
      (Additional_InputImage_IDs caseData) in
  foldl (fun sc nodeID => removeNodeByID nodeID sc) sc
    (Additional_InputMask_IDs caseData).

(** [closeCase()] *)
Definition closeCase : M unit :=
  caseAboutToClose;;
  s ← get_state;
  match CaseData s with
  | TextEmpty => mret tt
  | TextOther => raise CaseDataError
  | TextOf caseData =>
      modify (fun s => set_mrmlScene
                (remove_case_nodes caseData (mrmlScene s)) s)
  end;;
  modify (set_currentIdx None).

Definition out_of_range (case_idx n : Z) : string :=
  "case_idx " +:+ pretty case_idx +:+ " is out of range (n cases: "
  +:+ pretty n +:+ ")".

(** [node.GetID()] where [node] may be [None] *)
Definition GetID_of (n : option node) : M string :=
  match n with
  | Some n => mret (GetID n)
  | None =>
      raise (AttributeError "'NoneType' object has no attribute 'GetID'")
  end.

(** [loadCase(case_idx)] *)
Definition loadCase (case_idx : Z) : M bool :=
  s ← get_state;
  assert (bool_decide (0 ≤ case_idx)%Z && bool_decide (case_idx < caseCount s)%Z)
    (out_of_range case_idx (caseCount s));;
  (if currentIdx s is Some _ then closeCase else mret tt);;
  s ← get_state;
  let root := _getColumnValue s "root" case_idx in
  let im := _getColumnValue s "image" case_idx in
  im_node ← _loadImageNode root im;
  assert (bool_decide (im_node ≠ None)) "Failed to load main image";;
  additionalImageNodes ←
    load_additional (_loadImageNode root)
      (_getColumnValue_list s "additionalImages" case_idx);
  let ma := _getColumnValue s "mask" case_idx in
  ma_node ← (if ma is Some _ then _loadMaskNode root ma im_node else mret None);
  additionalMaskNodes ←
    load_additional (fun ma => _loadMaskNode root ma None)
      (_getColumnValue_list s "additionalMasks" case_idx);
  im_id ← GetID_of im_node;
  ma_id ← GetID_of ma_node;
  modify (set_CaseData
            (TextOf {| InputImage_ID := im_id; InputMask_ID := ma_id;
                       Additional_InputImage_IDs := GetID <$> additionalImageNodes;
                       Additional_InputMask_IDs := GetID <$> additionalMaskNodes |}));;
  modify (set_currentIdx (Some case_idx));;
  caseLoaded;;
  mret true.

(** The body of [getCaseData] inside [try]. *)
Definition getCaseData_try (s : state)
  : result (option node * option node * list (option node) * list (option node)) :=
  match CaseData s with
  | TextEmpty | TextOther => Raise CaseDataError
  | TextOf caseData =>
      let im := GetNodeByID (mrmlScene s) (InputImage_ID caseData) in
      let ma :=
        if bool_decide (InputMask_ID caseData ≠ "")
        then GetNodeByID (mrmlScene s) (InputMask_ID caseData)
        else None in
      let add_im :=
        GetNodeByID (mrmlScene s) <$> Additional_InputImage_IDs caseData in
      let add_ma :=
        GetNodeByID (mrmlScene s) <$> Additional_InputMask_IDs caseData in
      Return (im, ma, add_im, add_ma)
  end.

(** [getCaseData()]: [except Exception] turns every exception of the body
    into the empty result. *)
Definition getCaseData (s : state)
  : option node * option node * list (option node) * list (option node) :=
  match getCaseData_try s with
  | Return r => r
  | Raise _ => (None, None, [], [])
  end.

End Logic.

(** ** [CsvTableIterator.py]: [CsvTableEventHandler.saveMask] *)

(** [fmt % n] for a string [fmt] and an int [n >= 0]. The model covers
    ordinary characters, [%%], the conversions [d i u s r a] without flags,
    width or precision, and a mapping key; [FormatUnmodelled] answers for a
    conversion beyond these. *)
Inductive fmt_result :=
  | Formatted (s : string)
  | FormatRaises (e : exn)
  | FormatUnmodelled.

Definition fmt_cons (c : ascii) (r : fmt_result) : fmt_result :=
  match r with
  | Formatted s => Formatted (String c s)
  | _ => r
  end.

Definition fmt_app (p : string) (r : fmt_result) : fmt_result :=
  match r with
  | Formatted s => Formatted (p +:+ s)
  | _ => r
  end.

Definition is_decimal_or_str_conversion (c : ascii) : bool :=
  bool_decide (c ∈ ["d"; "i"; "u"; "s"; "r"; "a"]%char).

Definition is_other_conversion_char (c : ascii) : bool :=
  bool_decide (c ∈ ["-"; "+"; " "; "#"; "0"; "1"; "2"; "3"; "4"; "5"; "6";
                    "7"; "8"; "9"; "*"; "."; "h"; "l"; "L"; "o"; "x"; "X";
                    "e"; "E"; "f"; "F"; "g"; "G"; "c"]%char).

(** [arg] is the argument while no conversion has used it. *)
Fixpoint pct_format (fmt : string) (arg : option nat) : fmt_result :=
  match fmt with
  | "" =>
      match arg with
      | None => Formatted ""
      | Some _ =>
          FormatRaises
            (TypeError "not all arguments converted during string formatting")
      end
  | String c rest =>
      if bool_decide (c = "%"%char) then
        match rest with
        | "" => FormatRaises (ValueError "incomplete format")
        | String k rest' =>
            if bool_decide (k = "%"%char) then
              fmt_cons "%" (pct_format rest' arg)
            else if bool_decide (k = "("%char) then
              FormatRaises (TypeError "format requires a mapping")
            else if is_decimal_or_str_conversion k then
              match arg with
              | Some n => fmt_app (pretty n) (pct_format rest' None)
              | None =>
                  FormatRaises
                    (TypeError "not enough arguments for format string")
              end
            else if is_other_conversion_char k then FormatUnmodelled
            else
              match arg with
              | Some _ =>
                  FormatRaises (ValueError "unsupported format character")
              | None =>
                  FormatRaises
                    (TypeError "not enough arguments for format string")
              end
        end
      else fmt_cons c (pct_format rest arg)
  end.

(** The files and directories there are, by path as written. *)
Record filesystem := {
  files : list string;
  directories : list string;
}.

(** [os.path.exists] and [os.path.isdir] *)
Definition path_exists (fs : filesystem) (p : string) : bool :=
  bool_decide (p ∈ files fs) || bool_decide (p ∈ directories fs).

Definition isdir (fs : filesystem) (p : string) : bool :=
  bool_decide (p ∈ directories fs).

(** [os.makedirs(d)] for a [d] that is no directory yet; the directories
    above [d] it creates on the way are not kept track of. *)
Definition makedirs (d : string) (fs : filesystem) : result filesystem :=
  if bool_decide (d = "") then Raise FileNotFoundError
  else if bool_decide (d ∈ files fs) then Raise FileExistsError
  else Return {| files := files fs; directories := directories fs ++ [d] |}.

(** How a call of [saveMask] ends: the file name the node was saved
    under, an exception, a format outside the model of [%], or a search
    for a free name that did not end within its fuel. *)
Inductive save_result :=
  | Saved (filename : string)
  | SaveRaises (e : exn)
  | SaveUnmodelled
  | SaveOutOfFuel.

(** [while os.path.exists(filename % idx): idx += 1], then
    [filename % idx]. *)
Fixpoint unique_name (fuel : nat) (fs : filesystem) (filename : string)
    (idx : nat) : save_result :=
  match fuel with
  | 0 => SaveOutOfFuel
  | S fuel' =>
      match pct_format filename (Some idx) with
      | Formatted name =>
          if path_exists fs name then unique_name fuel' fs filename (S idx)
          else Saved name
      | FormatRaises e => SaveRaises e
      | FormatUnmodelled => SaveUnmodelled
      end
  end.

(** The search tries at most one name more than there are paths. *)
Definition name_fuel (fs : filesystem) : nat :=
  S (length (files fs) + length (directories fs)).

(** Lines 799 to 814 of [saveMask]: the file name for a node named
    [nodename] in [target_dir]. *)
Definition save_filename (fs : filesystem) (target_dir nodename : string)
    (reader : option string) (overwrite_existing : bool) : save_result :=
  let nodename :=
    match reader with
    | Some reader => nodename +:+ "_" +:+ reader
    | None => nodename
    end in
  let filename := ospath.join target_dir nodename in
  if path_exists fs (filename +:+ ".seg.nrrd") && negb overwrite_existing then
    unique_name (name_fuel fs) fs (filename +:+ "(%d).seg.nrrd") 1
  else Saved (filename +:+ ".seg.nrrd").

Section Handler.

(** [slicer.util.saveNode(node, filename)] wrote the file. *)
Context (saveNode_ok : node -> string -> bool).

(** The directory [saveMask] saves in. *)
Definition save_target_dir (n : node)
    (caseData : option node * option node * list (option node) * list (option node))
  : result string :=
  match GetStorageNode n with
  | Some {| GetFileName := Some f |} => Return (ospath.dirname f)
  | _ =>
      let '(im_node, _, _, _) := caseData in
      match im_node with
      | None =>
          Raise (AttributeError
                   "'NoneType' object has no attribute 'GetStorageNode'")
      | Some im_node =>
          match GetStorageNode im_node with
          | None =>
              Raise (AttributeError
                       "'NoneType' object has no attribute 'GetFileName'")
          | Some {| GetFileName := None |} =>
              Raise (TypeError
                       "expected str, bytes or os.PathLike object, not NoneType")
          | Some {| GetFileName := Some f |} => Return (ospath.dirname f)
          end
      end
  end.

(** [saveMask(node, reader, caseData, overwrite_existing)] *)
Definition saveMask (n : option node) (reader : option string)
    (caseData : option node * option node * list (option node) * list (option node))
    (overwrite_existing : bool) (fs : filesystem) : save_result * filesystem :=
  match n with
  | None =>
      (SaveRaises
         (AttributeError "'NoneType' object has no attribute 'GetStorageNode'"),
       fs)
  | Some n =>
      match save_target_dir n caseData with
      | Raise e => (SaveRaises e, fs)
      | Return target_dir =>
          match (if isdir fs target_dir then Return fs
                 else makedirs target_dir fs) with
          | Raise e => (SaveRaises e, fs)
          | Return fs =>
              match save_filename fs target_dir (GetName n) reader
                      overwrite_existing with
              | Saved filename =>
                  (Saved filename,
                   if saveNode_ok n filename && negb (bool_decide (filename ∈ files fs))
                   then {| files := files fs ++ [filename];
                           directories := directories fs |}
                   else fs)
              | r => (r, fs)
              end
          end
      end
  end.

End Handler.

(** ** [IteratorFactory.py]: the registry of iterator widgets *)

(** A class object: its name and the names of the classes of its
    [__mro__], itself included. *)
Record pyclass := {
  class_name : string;
  class_mro : list string;
}.

(** What a caller may pass as [widget]: a class, or an object that is no
    class. *)
Inductive pyobject :=
  | ClassObject (c : pyclass)
  | InstanceOf (c : pyclass).

Definition IteratorWidgetBase : string := "IteratorBase.IteratorWidgetBase".

(** [issubclass(widget, base)]: a [TypeError] when [widget] is no class. *)
Definition issubclass (widget : pyobject) (base : string) : result bool :=
  match widget with
  | ClassObject c => Return (bool_decide (base ∈ class_mro c))
  | InstanceOf _ => Raise (TypeError "issubclass() arg 1 must be a class")
  end.

Definition CaseTableIteratorWidget : pyclass :=
  {| class_name := "CsvTableIterator.CaseTableIteratorWidget";
     class_mro := ["CsvTableIterator.CaseTableIteratorWidget";
                   IteratorWidgetBase; "object"] |}.

(** Modelled from the spec: the widget class of [CsvInferenceIterator.py],
    a module that is not among the sources. The registry lists it as an
    iteration strategy next to the table iterator, so it is taken to be a
    subclass of [IteratorWidgetBase]. *)
Definition CsvInferenceIteratorWidget : pyclass :=
  {| class_name := "CsvInferenceIterator.CsvInferenceIteratorWidget";
     class_mro := ["CsvInferenceIterator.CsvInferenceIteratorWidget";
                   IteratorWidgetBase; "object"] |}.

Module IteratorFactory.

(** [IteratorFactory.IMPLEMENTATIONS] as the class starts with it. *)
Definition IMPLEMENTATIONS : gmap string pyclass :=
  {[ "simple_csv_iteration" := CaseTableIteratorWidget;
     "mask_comparison" := CsvInferenceIteratorWidget ]}.

(** [registerIteratorWidget(name, widget)]: how the call ends and the
    registry after it. *)
Definition registerIteratorWidget (name : string) (widget : pyobject)
    (impl : gmap string pyclass) : result unit * gmap string pyclass :=
  if bool_decide (name ∈ dom impl) then (Return tt, impl)
  else
    match issubclass widget IteratorWidgetBase, widget with
    | Raise e, _ => (Raise e, impl)
    | Return false, _ => (Return tt, impl)
    | Return true, ClassObject c => (Return tt, <[name := c]> impl)
    | Return true, InstanceOf _ => (Return tt, impl)
    end.

(** [getImplementationNames()] *)
Definition getImplementationNames (impl : gmap string pyclass) : list string :=
  (map_to_list impl).*1.

(** [getIteratorWidget(mode)]: [onExceptionReturnNone] turns the
    [KeyError] into [None]. *)
Definition getIteratorWidget (mode : string) (impl : gmap string pyclass)
  : option pyclass :=
  impl !! mode.

End IteratorFactory.

(** ** [CsvTableIterator.py]: the configuration widget *)

(** What the user has set in [CaseTableIteratorWidget]: the table chosen
    in the selector, the texts of the five line edits, the three check
    boxes. *)
Record widget_gui := {
  batchTableSelector : option vtkMRMLTableNode;
  rootSelector : string;
  imageSelector : string;
  maskSelector : string;
  addImsSelector : string;
  addMasksSelector : string;
  chkAutoRedirect : bool;
  chkSaveMasks : bool;
  chkSaveNewMasks : bool;
}.

(** [is_valid()]: [currentNodeID] is [""] when no table is chosen. *)
Definition is_valid (w : widget_gui) : bool :=
  bool_decide (batchTableSelector w ≠ None)
  && bool_decide (imageSelector w ≠ "").

(** [str(text).strip()] under a key, when the text is not empty *)
Definition parse_name (text : string) : option string :=
  if bool_decide (text ≠ "") then Some (pystr.strip text) else None.

(** [[str(c).strip() for c in text.split(",")]] under a key, when the text
    is not empty *)
Definition parse_names (text : string) : option (list string) :=
  if bool_decide (text ≠ "")
  then Some (pystr.strip <$> pystr.split "," text) else None.

(** [_parseConfig()] *)
Definition _parseConfig (w : widget_gui) : result column_map :=
  if bool_decide (imageSelector w ≠ "") then
    Return {| map_root := parse_name (rootSelector w);
              map_image := Some (pystr.strip (imageSelector w));
              map_mask := parse_name (maskSelector w);
              map_additionalImages := parse_names (addImsSelector w);
              map_additionalMasks := parse_names (addMasksSelector w) |}
  else Raise (AssertionError "").

(** The settings a [CsvTableEventHandler] is made with. *)
Record CsvTableEventHandler := {
  redirect : bool;
  reader : option string;
  saveNew : bool;
  saveLoaded : bool;
}.

(** [startBatch(reader)] in a scene [sc] whose parameter node holds
    [text]: the iterator, with the new handler registered as the listener
    [l], and the handler. *)
Definition startBatch (w : widget_gui) (reader : option string) (l : listener)
    (sc : scene) (text : param_text) : result (state * CsvTableEventHandler) :=
  match batchTableSelector w with
  | None =>
      Raise (AttributeError
               "'NoneType' object has no attribute 'GetStorageNode'")
  | Some tableNode =>
      match _parseConfig w with
      | Raise e => Raise e
      | Return columnMap =>
          match CaseTableIteratorLogic (Some tableNode) columnMap sc text with
          | Raise e => Raise e
          | Return iterator =>
              Return ((registerEventListener l iterator).2,
                      {| redirect := chkAutoRedirect w; reader := reader;
                         saveNew := chkSaveNewMasks w;
                         saveLoaded := chkSaveMasks w |})
          end
      end
  end.

(** ** [CsvTableIterator.py]: [CsvTableEventHandler.onCaseAboutToClose] *)

(** [slicer.util.getNodesByClass(cls)] *)
Definition getNodesByClass (cls : node_class) (sc : scene) : list node :=
  List.filter (fun n => bool_decide (GetClassName n = cls)) sc.

(** [n == m] for a node [n] and a reference [m] that may be [None]: the
    same node of the scene, told by its identifier. *)
Definition same_node (n : node) (m : option node) : bool :=
  match m with
  | Some m => bool_decide (GetID n = GetID m)
  | None => false
  end.

(** The nodes [onCaseAboutToClose] passes to [saveMask], in the order of
    the calls: the loaded masks when [saveLoaded] is set, then, when
    [saveNew] is set, the segmentation nodes of the scene that are none of
    the loaded masks. *)
Definition nodes_to_save (h : CsvTableEventHandler) (s : state)
  : list (option node) :=
  let '(_, mask, _, additionalMasks) := getCaseData s in
  (if saveLoaded h
   then (if mask is Some _ then [mask] else []) ++ additionalMasks
   else [])
  ++ (if saveNew h
      then Some <$> List.filter
                      (fun n => negb (existsb (same_node n) additionalMasks)
                                && negb (same_node n mask))
                      (getNodesByClass vtkMRMLSegmentationNode (mrmlScene s))
      else []).

(** How [onCaseAboutToClose] went: the nodes saved, by identifier, each
    with its file; the outcome of the [saveMask] call that did not save, if
    one ended the callback; whether [SegmentEditorWidget.exit()] was
    called. *)
Record close_report := {
  saved_files : list (string * string);
  stopped_by : option save_result;
  editor_exited : bool;
}.

Section HandlerEvents.

Context (saveNode_ok : node -> string -> bool).

(** The calls of [saveMask], one node after the other, up to the first
    that does not save. *)
Fixpoint save_each (reader : option string)
    (caseData : option node * option node * list (option node) * list (option node))
    (nodes : list (option node)) (fs : filesystem)
  : list (string * string) * option save_result * filesystem :=
  match nodes with
  | [] => ([], None, fs)
  | n :: nodes' =>
      match saveMask saveNode_ok n reader caseData false fs with
      | (Saved filename, fs') =>
          let '(done, r, fs'') := save_each reader caseData nodes' fs' in
          ((from_option GetID "" n, filename) :: done, r, fs'')
      | (r, fs') => ([], Some r, fs')
      end
  end.

(** [onCaseAboutToClose(caller)], with the module the user has selected. *)
Definition onCaseAboutToClose (h : CsvTableEventHandler) (caller : state)
    (selectedModule : string) (fs : filesystem) : close_report * filesystem :=
  let caseData := getCaseData caller in
  let '(done, r, fs') :=
    save_each (reader h) caseData (nodes_to_save h caller) fs in
  ({| saved_files := done; stopped_by := r;
      editor_exited :=
        match r with
        | None => bool_decide (selectedModule = "SegmentEditor")
        | Some _ => false
        end |}, fs').

End HandlerEvents.

(** ** [IteratorBase.py]: the parameter node *)

Module ParameterNode.

(** A [vtkMRMLScriptedModuleNode]: its module name and singleton tag
    ([None] until set) and its parameters. *)
Record vtkMRMLScriptedModuleNode := {
  GetModuleName : option string;
  GetSingletonTag : option string;
  parameters : gmap string string;
}.

(** [node.GetParameter(name)]: [""] for a parameter that is not set. *)
Definition GetParameter (n : vtkMRMLScriptedModuleNode) (name : string)
  : string :=
  default "" (parameters n !! name).

(** [_findParameterNodeInScene()] over the scripted module nodes of the
    scene, in the order of [GetNthNodeByClass]. *)
Definition _findParameterNodeInScene (ns : list vtkMRMLScriptedModuleNode)
  : option vtkMRMLScriptedModuleNode :=
  List.find (fun n => bool_decide (GetModuleName n = Some "SlicerCaseIterator"))
    ns.

(** [_createParameterNode()]: the node, and the scene with it. *)
Definition _createParameterNode (ns : list vtkMRMLScriptedModuleNode)
  : vtkMRMLScriptedModuleNode * list vtkMRMLScriptedModuleNode :=
  let node := {| GetModuleName := Some "SlicerCaseIterator";
                 GetSingletonTag := Some "SlicerCaseIterator";
                 parameters := ∅ |} in
  (node, ns ++ [node]).

(** The property [parameterNode]. *)
Definition parameterNode (ns : list vtkMRMLScriptedModuleNode)
  : vtkMRMLScriptedModuleNode * list vtkMRMLScriptedModuleNode :=
  match _findParameterNodeInScene ns with
  | Some node => (node, ns)
  | None => _createParameterNode ns
  end.

End ParameterNode.

(** ** Identifiers the scene has not given yet *)

(** The scene gives every node it adds an identifier that is not empty and
    that no node of it has. *)
Definition fresh_ids (H : Host) : Prop :=
  forall sc cls,
    newNodeID H sc cls <> "" /\ newNodeID H sc cls ∉ (GetID <$> sc).

(** ** A small world to run the code in *)

Module demo.

Definition class_prefix (cls : node_class) : string :=
  match cls with
  | vtkMRMLScalarVolumeNode => "vtkMRMLScalarVolumeNode"
  | vtkMRMLLabelMapVolumeNode => "vtkMRMLLabelMapVolumeNode"
  | vtkMRMLSegmentationNode => "vtkMRMLSegmentationNode"
  end.

(** Every file of [/data/sub] below is there and loads; one listener
    raises nothing. *)
Definition host : Host :=
  {| isfile := fun p =>
       bool_decide (p ∈ ["/data/sub/a.nii"; "/data/sub/a.seg.nrrd";
                         "/data/sub/b.nii"; "/data/sub/b-label.nii";
                         "/data/sub/c.nii"]);
     getcwd := "/home/user";
     loadVolume_ok := fun _ => true;
     loadSegmentation_ok := fun _ => true;
     loadLabelVolume_ok := fun _ => true;
     ImportLabelmapToSegmentationNode_ok := fun _ => true;
     newNodeID := fun sc cls => class_prefix cls +:+ pretty (S (length sc));
     callback_raises := fun _ => false |}.

(** Five cases: one with a segmentation, one with a labelmap, one with an
    empty mask cell, one whose mask file is missing, one whose image file
    is missing. *)
Definition table : vtkTable :=
  {| table_columns :=
       [("ID", ["p1"; "p2"; "p3"; "p4"; "p5"]);
        ("dir", ["sub"; "sub"; "sub"; "sub"; "sub"]);
        ("image", ["a.nii"; "b.nii"; "c.nii"; "c.nii"; "missing.nii"]);
        ("mask", ["a.seg.nrrd"; "b-label.nii"; ""; "gone.seg.nrrd"; ""]);
        ("t2", ["c.nii"; "c.nii"; "c.nii"; "c.nii"; "c.nii"])];
     GetNumberOfRows := 5 |}.

Definition tableNode : vtkMRMLTableNode :=
  {| GetTable := table;
     table_storage := Some {| GetFileName := Some "/data/cases.csv" |} |}.

Definition columnMap : column_map :=
  {| map_root := Some "dir"; map_image := Some "image";
     map_mask := Some "mask"; map_additionalImages := Some ["t2"];
     map_additionalMasks := None |}.

(** the same batch with the mask column left blank *)
Definition columnMap_no_mask : column_map :=
  {| map_root := Some "dir"; map_image := Some "image";
     map_mask := None; map_additionalImages := None;
     map_additionalMasks := None |}.

(** The iterator [startBatch] builds: the logic object with one listener
    registered, in an empty scene. *)
Definition start (cm : column_map) : state :=
  match CaseTableIteratorLogic (Some tableNode) cm [] TextEmpty with
  | Return s => (registerEventListener 7 s).2
  | Raise _ =>
      {| csv_dir := None;
         caseColumns := {| col_patient := None; col_root := None;
                           col_image := None; col_mask := None;
                           col_additionalImages := [];
                           col_additionalMasks := [] |};
         caseCount := 0; currentIdx := None; _eventListeners := [];
         mrmlScene := []; CaseData := TextEmpty; calls := [] |}
  end.

Definition s0 : state := start columnMap.

(** after [loadCase(0)] *)
Definition s_open : state := (loadCase host 0 s0).2.


(** A host like [host] whose identifiers are longer than all of the
    scene, and so are new. *)
Definition all_ids (sc : scene) : string :=
  foldr (fun n acc => GetID n +:+ acc) "" sc.

Definition fresh_host : Host :=
  {| isfile := isfile host; getcwd := getcwd host;
     loadVolume_ok := loadVolume_ok host;
     loadSegmentation_ok := loadSegmentation_ok host;
     loadLabelVolume_ok := loadLabelVolume_ok host;
     ImportLabelmapToSegmentationNode_ok :=
       ImportLabelmapToSegmentationNode_ok host;
     newNodeID := fun sc cls => class_prefix cls +:+ all_ids sc;
     callback_raises := callback_raises host |}.

(** the widget as the user fills it for the demo table *)
Definition gui : widget_gui :=
  {| batchTableSelector := Some tableNode; rootSelector := "dir";
     imageSelector := " image"; maskSelector := "mask";
     addImsSelector := "t2"; addMasksSelector := "";
     chkAutoRedirect := false; chkSaveMasks := false;
     chkSaveNewMasks := true |}.

End demo.

(** ** The course of a call, for the proofs *)

Definition mk_event (kind : event_kind) (t : param_text) (l : listener)
  : event :=
  {| ev_kind := kind; ev_listener := l; ev_record := t |}.

(** The callbacks a notification of [ls] makes while the record reads [t],
    and the event whose callback raised, if one did. *)
Fixpoint notified (H : Host) (kind : event_kind) (t : param_text)
    (ls : list listener) : list event * option event :=
  match ls with
  | [] => ([], None)
  | l :: ls' =>
      let ev := mk_event kind t l in
      if callback_raises H ev then ([ev], Some ev)
      else let '(evs, r) := notified H kind t ls' in (ev :: evs, r)
  end.

(** [if self.currentIdx is not None: self.closeCase()] *)
Definition close_if_open (H : Host) (s : state) : result unit * state :=
  (if currentIdx s is Some _ then closeCase H else mret tt) s.

(** [s'] is [s] with another scene. *)
Definition scene_only (s s' : state) : Prop :=
  s' = set_mrmlScene (mrmlScene s') s.

(** The identifiers [closeCase] removes for a record text. *)
Definition record_ids (t : param_text) : list string :=
  match t with
  | TextOf d =>
      InputImage_ID d
      :: (if bool_decide (InputMask_ID d ≠ "") then [InputMask_ID d] else [])
      ++ Additional_InputImage_IDs d ++ Additional_InputMask_IDs d
  | _ => []
  end.

(** How often the callback [kind] of [l] is among [evs]. *)
Definition times_called (kind : event_kind) (l : listener) (evs : list event)
  : nat :=
  length (List.filter
            (fun ev => bool_decide (ev_kind ev = kind)
                       && bool_decide (ev_listener ev = l)) evs).

(** The main mask step of [loadCase]. *)
Definition load_main_mask (H : Host) (s : state) (case_idx : Z)
    (im_node : option node) : M (option node) :=
  let root := _getColumnValue s "root" case_idx in
  let ma := _getColumnValue s "mask" case_idx in
  if ma is Some _ then _loadMaskNode H root ma im_node else mret None.

(** The ways a call [loadCase(case_idx)] in state [s] can go, each with
    its result and the state it leaves. [s1] is the state after the case
    that was open is closed, [s2] after the main image is loaded, [s3]
    after the additional images, [s4] after the main mask, [s5] after the
    additional masks. *)
Inductive loadCase_course (H : Host) (case_idx : Z) (s : state)
  : result bool -> state -> Prop :=
  | course_out_of_range :
      ¬ (0 ≤ case_idx < caseCount s)%Z ->
      loadCase_course H case_idx s
        (Raise (AssertionError (out_of_range case_idx (caseCount s)))) s
  | course_close_raised (e : exn) (s1 : state) :
      (0 ≤ case_idx < caseCount s)%Z ->
      close_if_open H s = (Raise e, s1) ->
      loadCase_course H case_idx s (Raise e) s1
  | course_no_image (s1 : state) :
      (0 ≤ case_idx < caseCount s)%Z ->
      close_if_open H s = (Return tt, s1) ->
      _loadImageNode H (_getColumnValue s1 "root" case_idx)
        (_getColumnValue s1 "image" case_idx) s1 = (Return None, s1) ->
      loadCase_course H case_idx s
        (Raise (AssertionError "Failed to load main image")) s1
  | course_no_mask (s1 s2 s3 s4 s5 : state) (im_node : node)
      (add_im add_ma : list node) :
      (0 ≤ case_idx < caseCount s)%Z ->
      close_if_open H s = (Return tt, s1) ->
      _loadImageNode H (_getColumnValue s1 "root" case_idx)
        (_getColumnValue s1 "image" case_idx) s1
      = (Return (Some im_node), s2) ->
      load_additional (_loadImageNode H (_getColumnValue s1 "root" case_idx))
        (_getColumnValue_list s1 "additionalImages" case_idx) s2
      = (Return add_im, s3) ->
      load_main_mask H s1 case_idx (Some im_node) s3 = (Return None, s4) ->
      load_additional
        (fun ma => _loadMaskNode H (_getColumnValue s1 "root" case_idx) ma None)
        (_getColumnValue_list s1 "additionalMasks" case_idx) s4
      = (Return add_ma, s5) ->
      loadCase_course H case_idx s
        (Raise (AttributeError "'NoneType' object has no attribute 'GetID'"))
        s5
  | course_recorded (s1 s2 s3 s4 s5 : state) (im_node ma_node : node)
      (add_im add_ma : list node) :
      (0 ≤ case_idx < caseCount s)%Z ->
      close_if_open H s = (Return tt, s1) ->
      _loadImageNode H (_getColumnValue s1 "root" case_idx)
        (_getColumnValue s1 "image" case_idx) s1
      = (Return (Some im_node), s2) ->
      load_additional (_loadImageNode H (_getColumnValue s1 "root" case_idx))
        (_getColumnValue_list s1 "additionalImages" case_idx) s2
      = (Return add_im, s3) ->
      load_main_mask H s1 case_idx (Some im_node) s3
      = (Return (Some ma_node), s4) ->
      load_additional
        (fun ma => _loadMaskNode H (_getColumnValue s1 "root" case_idx) ma None)
        (_getColumnValue_list s1 "additionalMasks" case_idx) s4
      = (Return add_ma, s5) ->
      let d := {| InputImage_ID := GetID im_node;
                  InputMask_ID := GetID ma_node;
                  Additional_InputImage_IDs := GetID <$> add_im;
                  Additional_InputMask_IDs := GetID <$> add_ma |} in
      let evs := notified H CaseLoaded (TextOf d) (_eventListeners s5) in
      loadCase_course H case_idx s
        (match evs.2 with
         | None => Return true
         | Some ev => Raise (ListenerError ev)
         end)
        (set_calls (calls s5 ++ evs.1)
           (set_currentIdx (Some case_idx) (set_CaseData (TextOf d) s5))).

(** The name [saveMask] tries for the number [k]. *)
Definition numbered (base : string) (k : nat) : string :=
  base +:+ "(" +:+ pretty k +:+ ").seg.nrrd".

(** Every path of the file system. *)
Definition fs_paths (fs : filesystem) : list string :=
  files fs ++ directories fs.



(** The column names a column map asks for, each with its key, in the order
    [_getColumns] looks them up. *)
Definition configured_names (cm : column_map) : list (string * string) :=
  (match map_root cm with Some n => [("root", n)] | None => [] end)
  ++ (match map_image cm with Some n => [("image", n)] | None => [] end)
  ++ (match map_mask cm with Some n => [("mask", n)] | None => [] end)
  ++ (match map_additionalImages cm with
      | Some ns => (fun n => ("additionalImages", n)) <$> ns
      | None => []
      end)
  ++ (match map_additionalMasks cm with
      | Some ns => (fun n => ("additionalMasks", n)) <$> ns
      | None => []
      end).

(** The first of these names that is no column of the table [t]. *)
Definition first_missing (t : vtkTable) (names : list (string * string))
  : option (string * string) :=
  List.find (fun kn => bool_decide (GetColumnByName t kn.2 = None)) names.

(** The columns of [t] a column map names. *)
Definition resolved_columns (t : vtkTable) (cm : column_map) : case_columns :=
  {| col_patient :=
       match GetColumnByName t "patient" with
       | Some c => Some c
       | None => GetColumnByName t "ID"
       end;
     col_root := map_root cm ≫= GetColumnByName t;
     col_image := map_image cm ≫= GetColumnByName t;
     col_mask := map_mask cm ≫= GetColumnByName t;
     col_additionalImages :=
       omap (GetColumnByName t) (default [] (map_additionalImages cm));
     col_additionalMasks :=
       omap (GetColumnByName t) (default [] (map_additionalMasks cm)) |}.

(** The cell of the column [name] in the row [idx]. *)
Definition cell (t : vtkTable) (idx : Z) (name : string) : option string :=
  (fun col => GetValue col idx) <$> GetColumnByName t name.

(** How often the character [c] is in [s]. *)
Fixpoint count_char (c : ascii) (s : string) : nat :=
  match s with
  | "" => 0
  | String d s' => (if bool_decide (d = c) then 1 else 0) + count_char c s'
  end.

(** The identifiers of the nodes of a scene. *)
Definition scene_ids (sc : scene) : list string := GetID <$> sc.

(** Calls of [registerIteratorWidget], one after the other, each made
    whatever the one before ended with: the registry after them. *)
Definition registrations (regs : list (string * pyobject))
    (impl : gmap string pyclass) : gmap string pyclass :=
  foldl (fun impl reg =>
           (IteratorFactory.registerIteratorWidget reg.1 reg.2 impl).2)
    impl regs.

(** The first class among [regs] that is offered under the name [mode]
    and is a subclass of [IteratorWidgetBase]. *)
Fixpoint first_accepted (mode : string) (regs : list (string * pyobject))
  : option pyclass :=
  match regs with
  | [] => None
  | (name, ClassObject c) :: regs' =>
      if bool_decide (name = mode)
         && bool_decide (IteratorWidgetBase ∈ class_mro c)
      then Some c else first_accepted mode regs'
  | (_, InstanceOf _) :: regs' => first_accepted mode regs'
  end.

(** [s'] is [s] with the nodes [new] added to the scene, under
    identifiers that are not empty, differ from one another and are those
    of no node of [s]. *)
Definition appended (s s' : state) (new : list node) : Prop :=
  scene_only s s'
  /\ mrmlScene s' = mrmlScene s ++ new
  /\ NoDup (scene_ids new)
  /\ forall nodeID, nodeID ∈ scene_ids new ->
        nodeID <> "" /\ nodeID ∉ scene_ids (mrmlScene s).


(** The name [_loadMaskNode] gives the node of the mask file [ma_path]. *)
Definition mask_name (ma_path : string) : string :=
  let file_base := (ospath.splitext (ospath.basename ma_path)).1 in
  if pystr.endswith ".seg" (ospath.splitext ma_path).1
  then (ospath.splitext file_base).1 else file_base.

(** [s'] is [s] but for the scene, the record, [currentIdx] and the calls
    made: the batch and its listeners are the same. *)
Definition same_batch (s s' : state) : Prop :=
  csv_dir s' = csv_dir s /\ caseColumns s' = caseColumns s
  /\ caseCount s' = caseCount s /\ _eventListeners s' = _eventListeners s
  /\ exists evs, calls s' = calls s ++ evs.

(** * Properties *)

(** ** [os.path] *)

Example normpath_dots :
  ospath.normpath "/data/./sub/../sub//a.nii" = "/data/sub/a.nii".
Proof. reflexivity. Qed.

Example splitext_seg : ospath.splitext "/d/m.seg.nrrd" = ("/d/m.seg", ".nrrd").
Proof. reflexivity. Qed.

Example splitext_hidden : ospath.splitext "/d/.bashrc" = ("/d/.bashrc", "").
Proof. reflexivity. Qed.

Example dirname_file : ospath.dirname "/data/sub/a.nii" = "/data/sub".
Proof. reflexivity. Qed.

Example basename_file : ospath.basename "/data/sub/a.nii" = "a.nii".
Proof. reflexivity. Qed.

Lemma isabs_inv (p : string) :
  ospath.isabs p = true -> exists p', p = String "/" p'.
Proof.
  destruct p as [|c p']; [discriminate|].
  unfold ospath.isabs. cbn [pystr.startswith].
  case_bool_decide; [subst; eauto|discriminate].
Qed.

Lemma isabs_cons (p : string) : ospath.isabs (String "/" p) = true.
Proof. reflexivity. Qed.

Lemma isabs_join_l (a b : string) :
  ospath.isabs a = true -> ospath.isabs (ospath.join a b) = true.
Proof.
  intros [a' ->]%isabs_inv. unfold ospath.join.
  destruct (pystr.startswith "/" b) eqn:Hb; [exact Hb|].
  destruct (_ || _); apply isabs_cons.
Qed.

Lemma isabs_normpath (p : string) :
  ospath.isabs p = true -> ospath.isabs (ospath.normpath p) = true.
Proof.
  intros Habs. destruct (isabs_inv _ Habs) as [p' ->].
  unfold ospath.normpath.
  rewrite bool_decide_eq_false_2 by discriminate.
  change (pystr.startswith "/" (String "/" p')) with true.
  cbv iota.
  destruct (_ && _); rewrite bool_decide_eq_false_2 by discriminate;
    apply isabs_cons.
Qed.

Lemma isabs_abspath (cwd p : string) :
  ospath.isabs cwd = true -> ospath.isabs (ospath.abspath cwd p) = true.
Proof.
  intros Hcwd. unfold ospath.abspath.
  destruct (ospath.isabs p) eqn:Hp; apply isabs_normpath; [done|].
  by apply isabs_join_l.
Qed.

(** ** Path resolution *)

(** C5. Path resolution in [_buildPath]: an absolute file name is returned
    unchanged whatever the root and the directory of the table are; a
    relative one is joined with the root (and returned if that is
    absolute), then with the directory of the table's file when there is
    one, and normalised to an absolute path; ["a.nii"] with root ["sub"]
    and table directory ["/data"] resolves to ["/data/sub/a.nii"]. *)
Theorem buildPath_resolution (H : Host) (s : state) (root : option string)
    (fname : string) :
  fname <> "" ->
  ospath.isabs (getcwd H) = true ->
  let joined :=
    match root with
    | Some r => ospath.join r fname
    | None => fname
    end in
  let in_csv_dir :=
    match csv_dir s with
    | Some d => ospath.join d joined
    | None => joined
    end in
  (ospath.isabs fname = true -> _buildPath H s root (Some fname) = Some fname)
  /\ (ospath.isabs fname = false ->
      _buildPath H s root (Some fname)
      = Some (if ospath.isabs joined then joined
              else ospath.abspath (getcwd H) in_csv_dir))
  /\ (exists p, _buildPath H s root (Some fname) = Some p
                /\ ospath.isabs p = true)
  /\ (fname = "a.nii" -> root = Some "sub" -> csv_dir s = Some "/data" ->
      _buildPath H s root (Some fname) = Some "/data/sub/a.nii").
Proof.
  intros Hne Hcwd joined in_csv_dir.
  assert (Habs : ospath.isabs fname = true ->
                 _buildPath H s root (Some fname) = Some fname).
  { intros Hf. unfold _buildPath.
    rewrite bool_decide_eq_false_2 by done. by rewrite Hf. }
  assert (Hrel : ospath.isabs fname = false ->
                 _buildPath H s root (Some fname)
                 = Some (if ospath.isabs joined then joined
                         else ospath.abspath (getcwd H) in_csv_dir)).
  { intros Hf. unfold _buildPath.
    rewrite bool_decide_eq_false_2 by done. rewrite Hf.
    subst in_csv_dir joined. destruct root as [r|].
    - by destruct (ospath.isabs (ospath.join r fname)).
    - by rewrite Hf. }
  split_and!; [done|done| |].
  - destruct (ospath.isabs fname) eqn:Hf.
    + exists fname. by rewrite Habs.
    + rewrite Hrel by done.
      destruct (ospath.isabs joined) eqn:Hj; eexists; split; [done|done|done|].
      by apply isabs_abspath.
  - intros -> -> Hdir. unfold _buildPath. rewrite Hdir. reflexivity.
Qed.

Lemma buildPath_resolution_witness :
  _buildPath demo.host demo.s0 (Some "sub") (Some "a.nii")
  = Some "/data/sub/a.nii".
Proof.
  destruct (buildPath_resolution demo.host demo.s0 (Some "sub") "a.nii")
    as (_ & _ & _ & Hex); [done|reflexivity|].
  apply Hex; reflexivity.
Defined.

(** ** Running a method *)

Lemma bind_run {A B} (f : A -> M B) (m : M A) (s : state) :
  (m ≫= f) s
  = match m s with
    | (Return a, s') => f a s'
    | (Raise e, s') => (Raise e, s')
    end.
Proof. reflexivity. Qed.

Lemma scene_only_refl (s : state) : scene_only s s.
Proof. by destruct s. Qed.

Lemma scene_only_trans (s1 s2 s3 : state) :
  scene_only s1 s2 -> scene_only s2 s3 -> scene_only s1 s3.
Proof. unfold scene_only. intros -> ->. by destruct s1. Qed.

Lemma scene_only_set (sc : scene) (s : state) :
  scene_only s (set_mrmlScene sc s).
Proof. by destruct s. Qed.

Create HintDb frame.
#[local] Hint Resolve scene_only_refl scene_only_set : frame.

Section LogicFacts.

Context (H : Host).

(** *** The listeners *)

Lemma notify_run (kind : event_kind) (ls : list listener) (s : state) :
  notify H kind ls s
  = (match (notified H kind (CaseData s) ls).2 with
     | None => Return tt
     | Some ev => Raise (ListenerError ev)
     end,
     set_calls (calls s ++ (notified H kind (CaseData s) ls).1) s).
Proof.
  revert s. induction ls as [|l ls IH]; intros s.
  - simpl. rewrite app_nil_r. by destruct s.
  - cbn [notify notified]. rewrite !bind_run. cbn [get_state modify].
    fold (mk_event kind (CaseData s) l).
    destruct (callback_raises H _) eqn:Hraise; [reflexivity|].
    rewrite bind_run. cbn [modify].
    rewrite IH. cbn [add_call set_calls CaseData calls].
    destruct (notified H kind (CaseData s) ls) as [evs r]. simpl.
    by rewrite <- app_assoc.
Qed.

Lemma notified_calls (kind : event_kind) (t : param_text) (ls : list listener) :
  (notified H kind t ls).2 = None ->
  (notified H kind t ls).1 = mk_event kind t <$> ls.
Proof.
  induction ls as [|l ls IH]; [done|]. cbn [notified].
  destruct (callback_raises H _); [done|].
  destruct (notified H kind t ls) as [evs r]. simpl in *.
  intros ->. by rewrite IH.
Qed.


(** *** [closeCase] in one equation *)

Lemma closeCase_run (s : state) :
  closeCase H s
  = let evs := notified H CaseAboutToClose (CaseData s) (_eventListeners s) in
    let s1 := set_calls (calls s ++ evs.1) s in
    match evs.2, CaseData s with
    | Some ev, _ => (Raise (ListenerError ev), s1)
    | None, TextEmpty => (Return tt, set_currentIdx None s1)
    | None, TextOther => (Raise CaseDataError, s1)
    | None, TextOf d =>
        (Return tt,
         set_currentIdx None
           (set_mrmlScene (remove_case_nodes d (mrmlScene s)) s1))
    end.
Proof.
  unfold closeCase, caseAboutToClose. rewrite !bind_run. cbn [get_state].
  rewrite notify_run.
  destruct (notified H CaseAboutToClose (CaseData s) (_eventListeners s))
    as [evs [ev|]]; cbn -[remove_case_nodes]; [done|].
  rewrite bind_run. cbn [get_state].
  change (CaseData (set_calls (calls s ++ evs) s)) with (CaseData s).
  by destruct (CaseData s).
Qed.


Lemma closeCase_listeners (s : state) :
  _eventListeners (closeCase H s).2 = _eventListeners s.
Proof.
  rewrite closeCase_run. cbv zeta.
  destruct (notified _ _ _ _).2; [done|]. by destruct (CaseData s) eqn:Ht.
Qed.

Lemma closeCase_returns (s s' : state) (u : unit) :
  closeCase H s = (Return u, s') ->
  currentIdx s' = None
  /\ CaseData s' = CaseData s
  /\ CaseData s <> TextOther
  /\ _eventListeners s' = _eventListeners s
  /\ caseColumns s' = caseColumns s
  /\ caseCount s' = caseCount s
  /\ csv_dir s' = csv_dir s
  /\ calls s'
     = calls s
       ++ (mk_event CaseAboutToClose (CaseData s) <$> _eventListeners s)
  /\ mrmlScene s'
     = match CaseData s with
       | TextOf d => remove_case_nodes d (mrmlScene s)
       | _ => mrmlScene s
       end.
Proof.
  rewrite closeCase_run. cbv zeta.
  destruct (notified _ _ _ _).2 eqn:Hn; [done|].
  apply notified_calls in Hn. rewrite Hn.
  destruct (CaseData s) eqn:Ht; intros Hrun; simplify_eq; by split_and!.
Qed.

End LogicFacts.

Section LoaderFacts.

Context (H : Host).

(** *** The loaders change the scene only, and do not raise *)

Lemma _loadImageNode_returns (root fname : option string) (s s' : state)
    (r : result (option node)) :
  _loadImageNode H root fname s = (r, s') ->
  exists o, r = Return o /\ scene_only s s' /\ (o = None -> s' = s).
Proof.
  unfold _loadImageNode. rewrite bind_run. cbn [get_state].
  destruct (_buildPath H s root fname) as [im_path|];
    [|intros [= <- <-]; eauto with frame].
  destruct (isfile H im_path); cbn [negb];
    [|intros [= <- <-]; eauto with frame].
  destruct (loadVolume_ok H im_path); cbn [negb];
    [|intros [= <- <-]; eauto with frame].
  intros [= <- <-]. eexists. split; [done|]. split; [|done].
  by destruct s.
Qed.

Lemma _loadImageNode_returns_scene (root fname : option string) (s s' : state)
    (r : result (option node)) :
  _loadImageNode H root fname s = (r, s') ->
  exists o, r = Return o /\ scene_only s s'.
Proof.
  intros Hrun. apply _loadImageNode_returns in Hrun as (o & -> & Hs & _).
  eauto.
Qed.

Lemma _loadMaskNode_returns (root fname : option string) (ref_im : option node)
    (s s' : state) (r : result (option node)) :
  _loadMaskNode H root fname ref_im s = (r, s') ->
  exists o, r = Return o /\ scene_only s s'.
Proof.
  unfold _loadMaskNode. rewrite bind_run. cbn [get_state].
  destruct (_buildPath H s root fname) as [ma_path|];
    [|intros [= <- <-]; eauto with frame].
  destruct (isfile H ma_path); cbn [negb];
    [|intros [= <- <-]; eauto with frame].
  rewrite bind_run.
  destruct (pystr.endswith ".seg" (ospath.splitext ma_path).1).
  - destruct (loadSegmentation_ok H ma_path).
    + intros [= <- <-]. eexists. split; [done|]. by destruct s.
    + intros [= <- <-]. eauto with frame.
  - destruct (loadLabelVolume_ok H ma_path).
    + destruct (ospath.splitext ma_path) as [file_base ext] eqn:Hext.
      cbn -[ospath.splitext ospath.basename].
      destruct (ImportLabelmapToSegmentationNode_ok H ma_path);
        intros [= <- <-]; (eexists; split; [done|]; by destruct s).
    + intros [= <- <-]. eauto with frame.
Qed.

Lemma load_additional_returns (load : option string -> M (option node))
    (fnames : list string) :
  (forall f s s' r, load f s = (r, s') ->
                    exists o, r = Return o /\ scene_only s s') ->
  forall s s' r,
    load_additional load fnames s = (r, s') ->
    exists l, r = Return l /\ scene_only s s'.
Proof.
  intros Hload. induction fnames as [|f fnames IH]; intros s s' r.
  - intros [= <- <-]. eauto with frame.
  - cbn [load_additional]. rewrite bind_run.
    destruct (load (Some f) s) as [r1 s1] eqn:H1.
    destruct (Hload _ _ _ _ H1) as (o & -> & Hs1).
    rewrite bind_run.
    destruct (load_additional load fnames s1) as [r2 s2] eqn:H2.
    destruct (IH _ _ _ H2) as (l & -> & Hs2).
    intros [= <- <-]. eexists. split; [done|].
    by eapply scene_only_trans.
Qed.

End LoaderFacts.

Section CourseFacts.

Context (H : Host).

Lemma load_main_mask_returns (s0 : state) (case_idx : Z)
    (im_node : option node) (s s' : state) (r : result (option node)) :
  load_main_mask H s0 case_idx im_node s = (r, s') ->
  exists o, r = Return o /\ scene_only s s'.
Proof.
  unfold load_main_mask.
  destruct (_getColumnValue s0 "mask" case_idx).
  - apply _loadMaskNode_returns.
  - intros [= <- <-]. eauto using scene_only_refl.
Qed.

(** *** Every call of [loadCase] takes one of the courses *)

Lemma loadCase_course_complete (case_idx : Z) (s s' : state) (r : result bool) :
  loadCase H case_idx s = (r, s') -> loadCase_course H case_idx s r s'.
Proof.
  unfold loadCase. rewrite bind_run. cbn [get_state]. rewrite bind_run.
  unfold assert at 1.
  destruct (bool_decide (0 ≤ case_idx)%Z && bool_decide (case_idx < caseCount s)%Z)
    eqn:Hrange.
  2:{ intros [= <- <-]. apply course_out_of_range.
      apply andb_false_iff in Hrange as [Hr|Hr];
        apply bool_decide_eq_false in Hr; lia. }
  apply andb_true_iff in Hrange as [Hr1%bool_decide_eq_true Hr2%bool_decide_eq_true].
  assert (Hvalid : (0 ≤ case_idx < caseCount s)%Z) by lia.
  cbn [mret M_ret]. rewrite bind_run.
  change ((if currentIdx s is Some _ then closeCase H else mret ()) s)
    with (close_if_open H s).
  destruct (close_if_open H s) as [[[]|e] s1] eqn:Hclose.
  2:{ intros [= <- <-]. by eapply course_close_raised. }
  rewrite bind_run. cbn [get_state]. rewrite bind_run.
  destruct (_loadImageNode H _ _ s1) as [rim s2] eqn:Him.
  destruct (_loadImageNode_returns _ _ _ _ _ _ Him) as (o & -> & Hf2 & Hnone).
  destruct o as [im_node|].
  2:{ rewrite (Hnone eq_refl) in *. rewrite bind_run. unfold assert.
      rewrite bool_decide_eq_false_2 by (by intros ?).
      intros [= <- <-]. by eapply course_no_image. }
  rewrite bind_run. unfold assert at 1.
  rewrite bool_decide_eq_true_2 by done. cbn [mret M_ret].
  rewrite bind_run.
  destruct (load_additional _ _ s2) as [radd s3] eqn:Hadd.
  destruct (load_additional_returns _ _
              (fun f => _loadImageNode_returns_scene H _ f) _ _ _ Hadd)
    as (add_im & -> & Hf3).
  rewrite bind_run.
  change ((if _getColumnValue s1 "mask" case_idx is Some _
           then _loadMaskNode H (_getColumnValue s1 "root" case_idx)
                  (_getColumnValue s1 "mask" case_idx) (Some im_node)
           else mret None) s3)
    with (load_main_mask H s1 case_idx (Some im_node) s3).
  destruct (load_main_mask H s1 case_idx (Some im_node) s3)
    as [rma s4] eqn:Hma.
  destruct (load_main_mask_returns _ _ _ _ _ _ Hma) as (ma_node & -> & Hf4).
  rewrite bind_run.
  destruct (load_additional _ _ s4) as [raddm s5] eqn:Haddm.
  destruct (load_additional_returns _ _
              (fun f => _loadMaskNode_returns H _ f None) _ _ _ Haddm)
    as (add_ma & -> & Hf5).
  rewrite bind_run. cbn [GetID_of mret M_ret]. rewrite bind_run.
  destruct ma_node as [ma_node|].
  2:{ intros [= <- <-]. by eapply course_no_mask. }
  cbn [GetID_of mret M_ret]. unfold caseLoaded.
  repeat (rewrite bind_run; cbn [modify get_state]). rewrite notify_run.
  pose proof (course_recorded H case_idx s s1 s2 s3 s4 s5 im_node ma_node
                add_im add_ma Hvalid Hclose Him Hadd Hma Haddm) as Hcourse.
  cbv zeta in Hcourse.
  cbn [CaseData _eventListeners calls set_currentIdx set_CaseData].
  destruct (notified H CaseLoaded _ (_eventListeners s5)) as [evs [ev|]];
    intros [= <- <-]; exact Hcourse.
Qed.

End CourseFacts.

(** ** [loadCase] and [closeCase] *)

Lemma scene_only_fields (s s' : state) :
  scene_only s s' ->
  csv_dir s' = csv_dir s /\ caseColumns s' = caseColumns s
  /\ caseCount s' = caseCount s /\ currentIdx s' = currentIdx s
  /\ _eventListeners s' = _eventListeners s /\ CaseData s' = CaseData s
  /\ calls s' = calls s.
Proof. intros ->. by destruct s. Qed.

Lemma close_if_open_open (H : Host) (s : state) (i : Z) :
  currentIdx s = Some i -> close_if_open H s = closeCase H s.
Proof. unfold close_if_open. by intros ->. Qed.

(** The four loads of [loadCase] leave all but the scene as it was. *)
Lemma loads_scene_only (H : Host) (case_idx : Z) (s1 s2 s3 s4 s5 : state)
    (im : option node) (add_im add_ma : list node) (ma : option node)
    (root : option string) (fname : option string)
    (fnames1 fnames2 : list string) :
  _loadImageNode H root fname s1 = (Return im, s2) ->
  load_additional (_loadImageNode H root) fnames1 s2 = (Return add_im, s3) ->
  load_main_mask H s1 case_idx im s3 = (Return ma, s4) ->
  load_additional (fun ma => _loadMaskNode H root ma None) fnames2 s4
  = (Return add_ma, s5) ->
  scene_only s1 s5.
Proof.
  intros Him Hadd Hma Haddm.
  apply _loadImageNode_returns_scene in Him as (? & _ & H12).
  apply (load_additional_returns _ _
           (fun f => _loadImageNode_returns_scene H _ f)) in Hadd
    as (? & _ & H23).
  apply load_main_mask_returns in Hma as (? & _ & H34).
  apply (load_additional_returns _ _
           (fun f => _loadMaskNode_returns H _ f None)) in Haddm
    as (? & _ & H45).
  eauto using scene_only_trans.
Qed.

(** C3. For every index [idx] with [idx < 0] or [idx >= caseCount],
    [loadCase(idx)] fails with the out-of-range assertion and leaves the
    whole state as it was: [currentIdx] is unchanged, no case is closed,
    no listener is called, the scene and the case record are untouched. *)
Theorem loadCase_out_of_range (H : Host) (s : state) (idx : Z) :
  (idx < 0 \/ caseCount s <= idx)%Z ->
  loadCase H idx s
  = (Raise (AssertionError (out_of_range idx (caseCount s))), s).
Proof.
  intros Hidx. unfold loadCase. rewrite bind_run. cbn [get_state].
  rewrite bind_run. unfold assert at 1.
  destruct (bool_decide (0 ≤ idx)%Z && bool_decide (idx < caseCount s)%Z)
    eqn:Hrange; [|done].
  apply andb_true_iff in Hrange
    as [Hr1%bool_decide_eq_true Hr2%bool_decide_eq_true]. lia.
Qed.

Lemma loadCase_out_of_range_witness :
  loadCase demo.host 5 demo.s_open
  = (Raise (AssertionError "case_idx 5 is out of range (n cases: 5)"),
     demo.s_open)
  /\ currentIdx demo.s_open = Some 0%Z.
Proof.
  split; [|reflexivity].
  apply (loadCase_out_of_range demo.host demo.s_open 5).
  right. vm_compute. discriminate.
Defined.

(** ** Removing nodes from the scene *)

Lemma GetNodeByID_None (sc : scene) (nodeID : string) :
  GetNodeByID sc nodeID = None <-> forall n, n ∈ sc -> GetID n <> nodeID.
Proof.
  unfold GetNodeByID. induction sc as [|m sc IH]; cbn [find].
  - split; [|done]. intros _ n Hn. set_solver.
  - case_bool_decide as Hm.
    + split; [done|]. intros Hall. destruct (Hall m); [left|done].
    + rewrite IH. split.
      * intros Hall n [->|Hn]%elem_of_cons; auto.
      * intros Hall n Hn. apply Hall. by right.
Qed.

Lemma elem_of_RemoveNode (sc : scene) (nodeID : string) (n : node) :
  n ∈ RemoveNode nodeID sc <-> n ∈ sc /\ GetID n <> nodeID.
Proof.
  unfold RemoveNode. rewrite list_elem_of_In, filter_In, <- list_elem_of_In.
  by rewrite negb_true_iff, bool_decide_eq_false.
Qed.

Lemma removeNodeByID_RemoveNode (sc : scene) (nodeID : string) :
  removeNodeByID nodeID sc = RemoveNode nodeID sc.
Proof.
  unfold removeNodeByID. destruct (GetNodeByID sc nodeID) as [n|] eqn:Hn.
  - unfold GetNodeByID in Hn. apply find_some in Hn as [_ Hid].
    by apply bool_decide_eq_true in Hid as ->.
  - unfold RemoveNode. symmetry. apply forallb_filter_id, forallb_forall.
    intros n Hin%list_elem_of_In.
    rewrite negb_true_iff, bool_decide_eq_false.
    by eapply GetNodeByID_None.
Qed.

Lemma removeNodeByID_gone (sc : scene) (nodeID : string) :
  GetNodeByID (removeNodeByID nodeID sc) nodeID = None.
Proof.
  rewrite removeNodeByID_RemoveNode. apply GetNodeByID_None.
  by intros n [_ Hn]%elem_of_RemoveNode.
Qed.

Lemma removeNodeByID_absent (sc : scene) (nodeID other : string) :
  GetNodeByID sc nodeID = None ->
  GetNodeByID (removeNodeByID other sc) nodeID = None.
Proof.
  rewrite removeNodeByID_RemoveNode, !GetNodeByID_None.
  intros Hall n [Hn _]%elem_of_RemoveNode. auto.
Qed.

Lemma foldl_removeNodeByID_absent (ids : list string) (sc : scene)
    (nodeID : string) :
  GetNodeByID sc nodeID = None ->
  GetNodeByID (foldl (fun sc i => removeNodeByID i sc) sc ids) nodeID = None.
Proof.
  revert sc. induction ids as [|i ids IH]; intros sc Hsc; [done|].
  simpl. by apply IH, removeNodeByID_absent.
Qed.

Lemma foldl_removeNodeByID_gone (ids : list string) (sc : scene)
    (nodeID : string) :
  nodeID ∈ ids ->
  GetNodeByID (foldl (fun sc i => removeNodeByID i sc) sc ids) nodeID = None.
Proof.
  revert sc. induction ids as [|i ids IH]; intros sc Hin.
  - by inversion Hin.
  - simpl. apply elem_of_cons in Hin as [->|Hin]; [|by apply IH].
    apply foldl_removeNodeByID_absent, removeNodeByID_gone.
Qed.

(** After the removals of [closeCase] no identifier of the record names a
    node of the scene. *)
Lemma remove_case_nodes_gone (d : case_record) (sc : scene) (nodeID : string) :
  nodeID ∈ record_ids (TextOf d) ->
  GetNodeByID (remove_case_nodes d sc) nodeID = None.
Proof.
  unfold record_ids, remove_case_nodes.
  rewrite elem_of_cons, !elem_of_app.
  intros [->|[Hma|[Him|Haddm]]].
  - apply foldl_removeNodeByID_absent, foldl_removeNodeByID_absent.
    case_bool_decide; [apply removeNodeByID_absent|]; apply removeNodeByID_gone.
  - destruct (bool_decide (InputMask_ID d ≠ "")); [|by inversion Hma].
    apply list_elem_of_singleton in Hma as ->.
    apply foldl_removeNodeByID_absent, foldl_removeNodeByID_absent,
      removeNodeByID_gone.
  - by apply foldl_removeNodeByID_absent, foldl_removeNodeByID_gone.
  - by apply foldl_removeNodeByID_gone.
Qed.

(** ** Counting callbacks *)

Lemma times_called_app (kind : event_kind) (l : listener)
    (evs1 evs2 : list event) :
  times_called kind l (evs1 ++ evs2)
  = times_called kind l evs1 + times_called kind l evs2.
Proof. unfold times_called. by rewrite List.filter_app, length_app. Qed.

Lemma times_called_other_kind (kind kind' : event_kind) (t : param_text)
    (l : listener) (ls : list listener) :
  kind <> kind' -> times_called kind l (mk_event kind' t <$> ls) = 0.
Proof.
  intros Hk. unfold times_called. induction ls as [|l' ls IH]; [done|].
  cbn [fmap list_fmap List.filter mk_event ev_kind ev_listener].
  rewrite (bool_decide_eq_false_2 (kind' = kind)) by done. exact IH.
Qed.

Lemma times_called_absent (kind : event_kind) (t : param_text)
    (l : listener) (ls : list listener) :
  l ∉ ls -> times_called kind l (mk_event kind t <$> ls) = 0.
Proof.
  unfold times_called. induction ls as [|l' ls IH]; [done|].
  intros [Hne Hl]%not_elem_of_cons.
  cbn [fmap list_fmap List.filter mk_event ev_kind ev_listener].
  rewrite (bool_decide_eq_false_2 (l' = l)) by done.
  rewrite andb_false_r. by apply IH.
Qed.

Lemma times_called_once (kind : event_kind) (t : param_text)
    (l : listener) (ls : list listener) :
  NoDup ls -> l ∈ ls -> times_called kind l (mk_event kind t <$> ls) = 1.
Proof.
  induction 1 as [|l' ls Hl' Hnd IH]; [by inversion 1|].
  intros Hin. change (mk_event kind t <$> l' :: ls)
    with ([mk_event kind t l'] ++ (mk_event kind t <$> ls)).
  rewrite times_called_app. destruct (decide (l' = l)) as [->|Hne].
  - rewrite times_called_absent by done.
    unfold times_called.
    cbn [List.filter mk_event ev_kind ev_listener].
    by rewrite !bool_decide_eq_true_2.
  - apply elem_of_cons in Hin as [->|Hin]; [done|]. rewrite IH by done.
    unfold times_called.
    cbn [List.filter mk_event ev_kind ev_listener].
    rewrite (bool_decide_eq_false_2 (l' = l)) by done.
    by rewrite andb_false_r.
Qed.

(** [registerEventListener] keeps the list free of duplicates, so the
    listeners of an iterator are pairwise different. *)
Lemma registerEventListener_NoDup (l : listener) (s : state) :
  NoDup (_eventListeners s) ->
  NoDup (_eventListeners (registerEventListener l s).2).
Proof.
  intros Hnd. unfold registerEventListener. rewrite bind_run.
  cbn [get_state]. case_bool_decide as Hin; [done|].
  cbn. apply NoDup_app. split_and!; [done| |apply NoDup_singleton].
  intros x Hx ->%list_elem_of_singleton. done.
Qed.

(** ** Closing before loading *)

Lemma notified_kind (H : Host) (kind : event_kind) (t : param_text)
    (ls : list listener) (ev : event) :
  ev ∈ (notified H kind t ls).1 -> ev_kind ev = kind /\ ev_record ev = t.
Proof.
  induction ls as [|l ls IH]; [by inversion 1|].
  cbn [notified]. destruct (callback_raises H _).
  - by intros ->%list_elem_of_singleton.
  - destruct (notified H kind t ls) as [evs r].
    intros [->|Hin]%elem_of_cons; [done|]. by apply IH.
Qed.

Lemma times_called_no_such_kind (kind : event_kind) (l : listener)
    (evs : list event) :
  (forall ev, ev ∈ evs -> ev_kind ev <> kind) -> times_called kind l evs = 0.
Proof.
  unfold times_called. induction evs as [|ev evs IH]; [done|].
  intros Hall. cbn [List.filter].
  rewrite (bool_decide_eq_false_2 (ev_kind ev = kind)) by (apply Hall; left).
  apply IH. intros ev' Hev'. apply Hall. by right.
Qed.

Lemma closeCase_calls (H : Host) (s : state) :
  calls (closeCase H s).2
  = calls s
    ++ (notified H CaseAboutToClose (CaseData s) (_eventListeners s)).1.
Proof.
  rewrite closeCase_run. cbv zeta.
  destruct (notified _ _ _ _).2; [done|]. by destruct (CaseData s).
Qed.

(** C4. Whenever [loadCase(j)] is called while a case is open, the calls
    it makes to the listeners are "case about to close" calls followed by
    "case loaded" calls, and when a "case loaded" call is made (or the
    call returns) one [closeCase] has run before: every registered
    listener got its "case about to close" call exactly once, in the order
    of registration and with the record of the old case, before the first
    "case loaded" call. A call that returns has then made the "case
    loaded" call of every listener once, with the record of the new
    case. *)
Theorem loadCase_closes_once_before_loaded (H : Host) (s s' : state)
    (i j : Z) (r : result bool) :
  currentIdx s = Some i ->
  NoDup (_eventListeners s) ->
  loadCase H j s = (r, s') ->
  exists closes loads,
    calls s' = calls s ++ closes ++ loads
    /\ (forall ev, ev ∈ closes -> ev_kind ev = CaseAboutToClose)
    /\ (forall ev, ev ∈ loads -> ev_kind ev = CaseLoaded)
    /\ (loads <> [] \/ r = Return true ->
        closes = mk_event CaseAboutToClose (CaseData s) <$> _eventListeners s
        /\ forall l, l ∈ _eventListeners s ->
             times_called CaseAboutToClose l (closes ++ loads) = 1)
    /\ (r = Return true ->
        loads = mk_event CaseLoaded (CaseData s') <$> _eventListeners s
        /\ forall l, l ∈ _eventListeners s ->
             times_called CaseLoaded l (closes ++ loads) = 1).
Proof.
  intros Hopen Hnd Hrun. apply loadCase_course_complete in Hrun.
  set (full := mk_event CaseAboutToClose (CaseData s) <$> _eventListeners s).
  assert (Hfull : forall ev, ev ∈ full -> ev_kind ev = CaseAboutToClose).
  { intros ev (l & -> & _)%list_elem_of_fmap. done. }
  assert (Hquiet : forall s1,
            closeCase H s = (Return tt, s1) ->
            calls s1 = calls s ++ full ++ []).
  { intros s1 Hclose. rewrite app_nil_r.
    by apply closeCase_returns in Hclose as (_ & _ & _ & _ & _ & _ & _ & ? & _). }
  inversion Hrun as [Hrange|e s1 Hvalid Hclose|s1 Hvalid Hclose Him
                     |s1 s2 s3 s4 s5 im_node add_im add_ma
                        Hvalid Hclose Him Hadd Hma Haddm
                     |s1 s2 s3 s4 s5 im_node ma_node add_im add_ma
                        Hvalid Hclose Him Hadd Hma Haddm d evs Hres Hs'];
    subst; try rewrite (close_if_open_open _ _ _ Hopen) in Hclose.
  - exists [], []. rewrite !app_nil_r.
    split_and!; [done|by inversion 1|by inversion 1|by intros [?|?]|done].
  - exists (notified H CaseAboutToClose (CaseData s) (_eventListeners s)).1, [].
    rewrite app_nil_r. split_and!.
    + by rewrite <- closeCase_calls, Hclose.
    + intros ev Hev. by apply notified_kind in Hev as [? _].
    + by inversion 1.
    + by intros [?|?].
    + done.
  - exists full, []. split_and!; [by apply Hquiet|done|by inversion 1| |done].
    by intros [?|?].
  - exists full, []. split_and!; [|done|by inversion 1|by intros [?|?]|done].
    pose proof (loads_scene_only _ _ _ _ _ _ _ _ _ _ _ _ _ _ _
                  Him Hadd Hma Haddm) as Hframe.
    apply scene_only_fields in Hframe as (_ & _ & _ & _ & _ & _ & ->).
    by apply Hquiet.
  - pose proof (loads_scene_only _ _ _ _ _ _ _ _ _ _ _ _ _ _ _
                  Him Hadd Hma Haddm) as Hframe.
    apply scene_only_fields in Hframe as (_ & _ & _ & _ & Hls5 & _ & Hcalls5).
    pose proof (Hquiet _ Hclose) as Hcalls. rewrite app_nil_r in Hcalls.
    apply closeCase_returns in Hclose as (_ & _ & _ & Hls & _).
    subst evs. rewrite Hls5, Hls in *.
    exists full, (notified H CaseLoaded (TextOf d) (_eventListeners s)).1.
    cbn [calls set_calls CaseData set_currentIdx set_CaseData].
    split_and!.
    + by rewrite Hcalls5, Hcalls, <- app_assoc.
    + done.
    + intros ev Hev. by apply notified_kind in Hev as [? _].
    + intros _. split; [done|]. intros l Hl. rewrite times_called_app.
      subst full. rewrite times_called_once by done.
      rewrite times_called_no_such_kind; [done|].
      intros ev Hev. by apply notified_kind in Hev as [-> _].
    + intros Hret.
      destruct (notified H CaseLoaded (TextOf d) (_eventListeners s)).2
        eqn:Hn; [done|].
      apply notified_calls in Hn. rewrite Hn. split; [done|].
      intros l Hl. subst full. rewrite times_called_app.
      rewrite times_called_once by done.
      by rewrite times_called_other_kind.
Qed.

Lemma loadCase_closes_once_before_loaded_witness :
  calls (loadCase demo.host 1 demo.s_open).2
  = calls demo.s_open
    ++ [mk_event CaseAboutToClose (CaseData demo.s_open) 7]
    ++ [mk_event CaseLoaded (CaseData (loadCase demo.host 1 demo.s_open).2) 7].
Proof.
  destruct (loadCase_closes_once_before_loaded demo.host demo.s_open
              (loadCase demo.host 1 demo.s_open).2 0 1 (Return true))
    as (closes & loads & Hcalls & _ & _ & Hclose & Hload).
  - reflexivity.
  - apply (NoDup_singleton (7 : listener)).
  - vm_compute. reflexivity.
  - destruct Hclose as [-> _]; [by right|].
    destruct Hload as [-> _]; [done|]. exact Hcalls.
Defined.

(** C10. If [loadCase(idx)] is called with a valid [idx] while a case is
    open and fails because the main image cannot be loaded, the failure is
    not atomic: the case that was open has been closed (every listener got
    its "case about to close" call and the nodes the record names are out
    of the scene) and [currentIdx] is none afterwards; the state is the
    one [closeCase] left. *)
Theorem loadCase_image_failure_leaves_closed (H : Host) (s s' : state)
    (i idx : Z) :
  currentIdx s = Some i ->
  (0 <= idx < caseCount s)%Z ->
  loadCase H idx s = (Raise (AssertionError "Failed to load main image"), s') ->
  closeCase H s = (Return tt, s')
  /\ currentIdx s' = None
  /\ calls s'
     = calls s ++ (mk_event CaseAboutToClose (CaseData s) <$> _eventListeners s)
  /\ forall nodeID, nodeID ∈ record_ids (CaseData s) ->
       GetNodeByID (mrmlScene s') nodeID = None.
Proof.
  intros Hopen Hvalid Hrun. apply loadCase_course_complete in Hrun.
  inversion Hrun as [|e s1 _ Hclose|s1 _ Hclose Him
                     | |s1 s2 s3 s4 s5 im_node ma_node add_im add_ma
                         _ Hclose Him Hadd Hma Haddm d evs Hres Hs'].
  - subst. rewrite (close_if_open_open _ _ _ Hopen), closeCase_run in Hclose.
    cbv zeta in Hclose.
    destruct (notified _ _ _ _).2; [done|]. by destruct (CaseData s).
  - subst. rewrite (close_if_open_open _ _ _ Hopen) in Hclose.
    split; [done|].
    apply closeCase_returns in Hclose
      as (Hidx & _ & _ & _ & _ & _ & _ & Hcalls & Hscene).
    split_and!; [done..|].
    intros nodeID Hin. rewrite Hscene.
    destruct (CaseData s) as [|d|]; [by inversion Hin| |by inversion Hin].
    by apply remove_case_nodes_gone.
  - by destruct evs.2.
Qed.

Lemma loadCase_image_failure_leaves_closed_witness :
  currentIdx demo.s_open = Some 0%Z
  /\ currentIdx (loadCase demo.host 4 demo.s_open).2 = None
  /\ mrmlScene (loadCase demo.host 4 demo.s_open).2 = [].
Proof.
  split; [reflexivity|].
  destruct (loadCase_image_failure_leaves_closed demo.host demo.s_open
              (loadCase demo.host 4 demo.s_open).2 0 4)
    as (_ & Hidx & _ & _).
  - reflexivity.
  - change (0 <= 4 < 5)%Z. lia.
  - vm_compute. reflexivity.
  - split; [exact Hidx|]. vm_compute. reflexivity.
Defined.







(** ** [loadCase] and the optional mask *)

Lemma _loadMaskNode_Some (H : Host) (root fname : option string)
    (ref_im : option node) (s s' : state) (n : node) :
  _loadMaskNode H root fname ref_im s = (Return (Some n), s') ->
  exists p, _buildPath H s root fname = Some p /\ isfile H p = true.
Proof.
  unfold _loadMaskNode. rewrite bind_run. cbn [get_state].
  destruct (_buildPath H s root fname) as [ma_path|]; [|done].
  destruct (isfile H ma_path) eqn:Hfile; [|done]. intros _. by exists ma_path.
Qed.

Lemma _buildPath_csv_dir (H : Host) (s s' : state) (root fname : option string) :
  csv_dir s' = csv_dir s -> _buildPath H s' root fname = _buildPath H s root fname.
Proof. unfold _buildPath. by intros ->. Qed.

Lemma _buildPath_Some (H : Host) (s : state) (root : option string)
    (fname p : string) :
  _buildPath H s root (Some fname) = Some p -> fname <> "".
Proof. unfold _buildPath. by case_bool_decide. Qed.

Lemma close_if_open_returns (H : Host) (s s1 : state) (u : unit) :
  close_if_open H s = (Return u, s1) ->
  caseColumns s1 = caseColumns s /\ csv_dir s1 = csv_dir s.
Proof.
  unfold close_if_open. destruct (currentIdx s).
  - intros Hclose.
    by apply closeCase_returns in Hclose as (_ & _ & _ & _ & Hc & _ & Hd & _).
  - intros Hrun. by injection Hrun as _ <-.
Qed.

(** [loadCase] returns only when a main mask was loaded: the mask column
    is set, the cell of the row is not empty, and the file is there. *)
Lemma loadCase_returns_only_with_mask (H : Host) (s s' : state) (idx : Z)
    (b : bool) :
  loadCase H idx s = (Return b, s') ->
  exists ma p,
    _getColumnValue s "mask" idx = Some ma /\ ma <> ""
    /\ _buildPath H s (_getColumnValue s "root" idx) (Some ma) = Some p
    /\ isfile H p = true.
Proof.
  intros Hrun. apply loadCase_course_complete in Hrun.
  inversion Hrun as [| | | |s1 s2 s3 s4 s5 im_node ma_node add_im add_ma
                           Hvalid Hclose Him Hadd Hma Haddm d evs Hres Hs'].
  apply close_if_open_returns in Hclose as [Hcols Hdir].
  assert (Hframe : scene_only s1 s3).
  { apply _loadImageNode_returns_scene in Him as (? & _ & H12).
    apply (load_additional_returns _ _
             (fun f => _loadImageNode_returns_scene H _ f)) in Hadd
      as (? & _ & H23).
    by eapply scene_only_trans. }
  apply scene_only_fields in Hframe as (Hdir3 & _).
  unfold load_main_mask, _getColumnValue in *. rewrite Hcols in *.
  destruct (single_column (caseColumns s) "mask") as [col|]; [|done].
  apply _loadMaskNode_Some in Hma as (p & Hp & Hfile).
  rewrite (_buildPath_csv_dir H s s3) in Hp by congruence.
  exists (GetValue col idx), p. split_and!; [done| |done..].
  by eapply _buildPath_Some.
Qed.

(** C1, the code at the failing inputs. In the demo batch [loadCase]
    raises [AttributeError] where the specification has it complete: with the mask
    column left blank (case 0), with an empty mask cell (case 2), and with
    a mask file that is missing (case 3). The main image is loaded and
    stays in the scene, no record is written, [currentIdx] stays none, no
    listener is called. *)
Theorem loadCase_without_mask_raises :
  let no_GetID :=
    Raise (AttributeError "'NoneType' object has no attribute 'GetID'") in
  (loadCase demo.host 0 (demo.start demo.columnMap_no_mask)).1 = no_GetID
  /\ (loadCase demo.host 2 demo.s0).1 = no_GetID
  /\ (loadCase demo.host 3 demo.s0).1 = no_GetID
  /\ currentIdx (loadCase demo.host 2 demo.s0).2 = None
  /\ CaseData (loadCase demo.host 2 demo.s0).2 = TextEmpty
  /\ calls (loadCase demo.host 2 demo.s0).2 = []
  /\ GetID <$> mrmlScene (loadCase demo.host 2 demo.s0).2
     = ["vtkMRMLScalarVolumeNode1"; "vtkMRMLScalarVolumeNode2"].
Proof. cbv zeta. split_and!; vm_compute; reflexivity. Qed.

(** ** [getCaseData] *)




(** ** The registry of iterator widgets *)

(** C9. Registering a widget under a name that is in the registry already
    is rejected: the call returns, the registry is unchanged and the name
    keeps its widget. Registering something that is no subclass of
    [IteratorWidgetBase] leaves the registry unchanged as well. *)
Theorem registerIteratorWidget_rejects (name : string) (widget : pyobject)
    (impl : gmap string pyclass) :
  name ∈ dom impl \/ issubclass widget IteratorWidgetBase <> Return true ->
  (IteratorFactory.registerIteratorWidget name widget impl).2 = impl
  /\ (IteratorFactory.registerIteratorWidget name widget impl).2 !! name
     = impl !! name
  /\ (name ∈ dom impl ->
      (IteratorFactory.registerIteratorWidget name widget impl).1 = Return tt).
Proof.
  intros Hrej.
  assert (Hsame : (IteratorFactory.registerIteratorWidget name widget impl).2
                  = impl).
  { unfold IteratorFactory.registerIteratorWidget.
    case_bool_decide as Hin; [done|]. destruct Hrej as [?|Hsub]; [done|].
    destruct widget as [c|c]; cbn in *; [|done].
    by case_bool_decide. }
  split_and!; [done|by rewrite Hsame|].
  intros Hin. unfold IteratorFactory.registerIteratorWidget.
  by rewrite bool_decide_eq_true_2.
Qed.

Lemma registerIteratorWidget_rejects_witness :
  (IteratorFactory.registerIteratorWidget "simple_csv_iteration"
     (ClassObject CsvInferenceIteratorWidget)
     IteratorFactory.IMPLEMENTATIONS).2 !! "simple_csv_iteration"
  = Some CaseTableIteratorWidget.
Proof.
  destruct (registerIteratorWidget_rejects "simple_csv_iteration"
              (ClassObject CsvInferenceIteratorWidget)
              IteratorFactory.IMPLEMENTATIONS) as (_ & -> & _).
  - left. vm_compute. tauto.
  - vm_compute. reflexivity.
Defined.

(** A new name with a widget class is registered, and no other name
    changes. *)
Lemma registerIteratorWidget_accepts (name : string) (c : pyclass)
    (impl : gmap string pyclass) :
  name ∉ dom impl ->
  IteratorWidgetBase ∈ class_mro c ->
  IteratorFactory.registerIteratorWidget name (ClassObject c) impl
  = (Return tt, <[name := c]> impl).
Proof.
  intros Hnew Hsub. unfold IteratorFactory.registerIteratorWidget.
  rewrite bool_decide_eq_false_2 by done. cbn.
  by rewrite bool_decide_eq_true_2.
Qed.

(** ** The file name [saveMask] saves under *)

Lemma pct_format_cons (c : ascii) (rest : string) (arg : option nat) :
  c <> "%"%char ->
  pct_format (String c rest) arg = fmt_cons c (pct_format rest arg).
Proof. intros Hc. cbn [pct_format]. by rewrite bool_decide_eq_false_2. Qed.

(** Without a percent sign in [base], [%] puts the number in the place of
    [%d]. *)
Lemma pct_format_plain (base : string) (n : nat) :
  pystr.contains "%" base = false ->
  pct_format (base +:+ "(%d).seg.nrrd") (Some n) = Formatted (numbered base n).
Proof.
  induction base as [|c base IH]; [reflexivity|].
  cbn [pystr.contains]. intros [Hc Hbase]%orb_false_iff.
  apply bool_decide_eq_false in Hc.
  change (String c base +:+ "(%d).seg.nrrd")
    with (String c (base +:+ "(%d).seg.nrrd")).
  rewrite pct_format_cons, IH by done. reflexivity.
Qed.

Lemma string_length_app (s1 s2 : string) :
  String.length (s1 +:+ s2) = String.length s1 + String.length s2.
Proof. induction s1 as [|c s1 IH]; [done|]. simpl. by rewrite IH. Qed.

Lemma string_app_inj_r (s1 s2 suffix : string) :
  s1 +:+ suffix = s2 +:+ suffix -> s1 = s2.
Proof.
  intros Heq.
  assert (Hlen : String.length s1 = String.length s2).
  { apply (f_equal String.length) in Heq.
    rewrite !string_length_app in Heq. lia. }
  revert s2 Heq Hlen. induction s1 as [|c s1 IH]; intros [|c' s2]; try done.
  simpl. intros [= -> Heq] [= Hlen]. f_equal. by apply IH.
Qed.

Lemma numbered_inj (base : string) : Inj (=) (=) (numbered base).
Proof.
  intros j k Heq. unfold numbered in Heq.
  apply String.app_inj in Heq. injection Heq as Heq.
  change (pretty j +:+ ").seg.nrrd" = pretty k +:+ ").seg.nrrd") in Heq.
  apply string_app_inj_r in Heq.
  by apply pretty_nat_inj in Heq.
Qed.

Lemma path_exists_paths (fs : filesystem) (p : string) :
  path_exists fs p = true <-> p ∈ fs_paths fs.
Proof.
  unfold path_exists, fs_paths.
  rewrite orb_true_iff, !bool_decide_eq_true, elem_of_app. done.
Qed.

(** The loop stops at the first number whose name is free, given fuel to
    reach it. *)
Lemma unique_name_finds (fs : filesystem) (fmt b' : string)
    (fuel idx k : nat) :
  (forall n, pct_format fmt (Some n) = Formatted (numbered b' n)) ->
  idx <= k < idx + fuel ->
  (forall j, idx <= j < k -> path_exists fs (numbered b' j) = true) ->
  path_exists fs (numbered b' k) = false ->
  unique_name fuel fs fmt idx = Saved (numbered b' k).
Proof.
  intros Hfmt. revert idx.
  induction fuel as [|fuel IH]; intros idx Hk Htaken Hfree; [lia|].
  cbn [unique_name]. rewrite Hfmt.
  destruct (decide (idx = k)) as [->|Hne]; [by rewrite Hfree|].
  rewrite Htaken by lia. apply IH; [lia| |done].
  intros j Hj. apply Htaken. lia.
Qed.

(** Among more names than there are paths, one is free. *)
Lemma first_free (fs : filesystem) (base : string) (idx n : nat) :
  (forall j, idx <= j < idx + n -> path_exists fs (numbered base j) = true)
  \/ exists k, idx <= k < idx + n
               /\ path_exists fs (numbered base k) = false
               /\ forall j, idx <= j < k ->
                            path_exists fs (numbered base j) = true.
Proof.
  induction n as [|n IH]; [left; lia|].
  destruct IH as [Hall|(k & Hk & Hfree & Htaken)].
  - destruct (path_exists fs (numbered base (idx + n))) eqn:Hn.
    + left. intros j Hj. destruct (decide (j = idx + n)) as [->|]; [done|].
      apply Hall. lia.
    + right. exists (idx + n). split; [lia|]. split; [done|].
      intros j Hj. apply Hall. lia.
  - right. exists k. split; [lia|]. by split.
Qed.

Lemma not_all_taken (fs : filesystem) (base : string) (idx : nat) :
  ~ (forall j, idx <= j < idx + name_fuel fs ->
               path_exists fs (numbered base j) = true).
Proof.
  intros Hall.
  assert (Hsub : (numbered base <$> seq idx (name_fuel fs)) ⊆+ fs_paths fs).
  { apply NoDup_submseteq.
    - apply (NoDup_fmap_2 _ (Inj0 := numbered_inj base)). apply NoDup_seq.
    - intros p (j & -> & Hj)%list_elem_of_fmap.
      apply path_exists_paths, Hall. apply elem_of_seq in Hj. lia. }
  apply submseteq_length in Hsub.
  rewrite length_fmap, length_seq in Hsub.
  unfold name_fuel, fs_paths in *. rewrite length_app in Hsub. lia.
Qed.








(** For a node name and directory without a percent sign: the name is the
    plain one when that is free or overwriting is asked for; otherwise it
    carries the first number from 1 on whose name is free. The search
    always ends. *)
Lemma save_filename_plain (fs : filesystem) (target_dir nodename : string)
    (reader : option string) (overwrite_existing : bool) :
  let base :=
    ospath.join target_dir
      (match reader with
       | Some reader => nodename +:+ "_" +:+ reader
       | None => nodename
       end) in
  pystr.contains "%" base = false ->
  if path_exists fs (base +:+ ".seg.nrrd") && negb overwrite_existing then
    exists k,
      1 <= k
      /\ save_filename fs target_dir nodename reader overwrite_existing
         = Saved (numbered base k)
      /\ path_exists fs (numbered base k) = false
      /\ forall j, 1 <= j < k -> path_exists fs (numbered base j) = true
  else
    save_filename fs target_dir nodename reader overwrite_existing
    = Saved (base +:+ ".seg.nrrd").
Proof.
  intros base Hplain. unfold save_filename. fold base.
  destruct (path_exists fs (base +:+ ".seg.nrrd") && negb overwrite_existing);
    [|done].
  destruct (first_free fs base 1 (name_fuel fs))
    as [Hall|(k & Hk & Hfree & Htaken)]; [by apply not_all_taken in Hall|].
  exists k. split_and!; [lia| |done..].
  apply unique_name_finds; [|lia|done..].
  intros n. by apply pct_format_plain.
Qed.

(** The example of the specification: with [case_reader.seg.nrrd] taken the
    name is [case_reader(1).seg.nrrd], with that taken as well it is
    [case_reader(2).seg.nrrd]; a free name is used as it is. *)
Example save_filename_case_reader :
  save_filename {| files := []; directories := ["/out"] |}
    "/out" "case" (Some "reader") false
  = Saved "/out/case_reader.seg.nrrd"
  /\ save_filename {| files := ["/out/case_reader.seg.nrrd"];
                      directories := ["/out"] |}
       "/out" "case" (Some "reader") false
     = Saved "/out/case_reader(1).seg.nrrd"
  /\ save_filename {| files := ["/out/case_reader.seg.nrrd";
                                "/out/case_reader(1).seg.nrrd"];
                      directories := ["/out"] |}
       "/out" "case" (Some "reader") false
     = Saved "/out/case_reader(2).seg.nrrd".
Proof. split_and!; vm_compute; reflexivity. Qed.

(** C7, the code at the failing input. A node named [100%] whose file
    [/out/100%.seg.nrrd] is there: the name with the number is built by
    [filename % idx] on a format that holds the node's name, the percent
    sign of the name is read as the start of a conversion, and [saveMask]
    raises [TypeError] where the specification has it save under
    [/out/100%(1).seg.nrrd]. Nothing is saved. *)
Theorem saveMask_percent_in_name_raises :
  let fs := {| files := ["/out/100%.seg.nrrd"]; directories := ["/out"] |} in
  let mask :=
    {| GetID := "vtkMRMLSegmentationNode1";
       GetClassName := vtkMRMLSegmentationNode;
       GetName := "100%";
       GetStorageNode := Some {| GetFileName := Some "/out/100%.seg.nrrd" |};
       ReferenceImageGeometry := None |} in
  save_filename fs "/out" "100%" None false
  = SaveRaises (TypeError "format requires a mapping")
  /\ saveMask (fun _ _ => true) (Some mask) None (None, Some mask, [], [])
       false fs
     = (SaveRaises (TypeError "format requires a mapping"), fs).
Proof. cbv zeta. split; vm_compute; reflexivity. Qed.

(** * Further properties of the code *)

(** ** The listener list *)

Lemma registerEventListener_run (l : listener) (s : state) :
  registerEventListener l s
  = (Return tt,
     if bool_decide (l ∈ _eventListeners s) then s
     else set_eventListeners (_eventListeners s ++ [l]) s).
Proof.
  unfold registerEventListener. rewrite bind_run. cbn [get_state].
  by case_bool_decide.
Qed.

(** X1. [registerEventListener] always returns; the listener is registered
    afterwards; registering a listener that is registered already changes
    nothing, a new one goes to the end of the list (so that the order of
    registration is the order of notification); registering twice is the
    same as once; and a list without duplicates stays so. *)
Theorem registerEventListener_once (l : listener) (s : state) :
  let s' := (registerEventListener l s).2 in
  (registerEventListener l s).1 = Return tt
  /\ l ∈ _eventListeners s'
  /\ (l ∈ _eventListeners s -> s' = s)
  /\ (l ∉ _eventListeners s -> _eventListeners s' = _eventListeners s ++ [l])
  /\ registerEventListener l s' = (Return tt, s')
  /\ (NoDup (_eventListeners s) -> NoDup (_eventListeners s')).
Proof.
  cbv zeta. rewrite !registerEventListener_run. cbn [fst snd].
  assert (Hadded : l ∈ _eventListeners s ++ [l]).
  { apply elem_of_app. right. by left. }
  case_bool_decide as Hin.
  - split_and!; try done. by rewrite bool_decide_eq_true_2.
  - split_and!; try done. rewrite bool_decide_eq_true_2; done.
    intros Hnd. apply NoDup_app. split_and!; [done| |apply NoDup_singleton].
    by intros x Hx ->%list_elem_of_singleton.
Qed.

(** ** The constructor *)

Lemma find_app_first {A} (f : A -> bool) (l1 l2 : list A) :
  List.find f (l1 ++ l2)
  = match List.find f l1 with
    | Some x => Some x
    | None => List.find f l2
    end.
Proof.
  induction l1 as [|x l1 IH]; [done|]. cbn [app List.find].
  by destruct (f x).
Qed.

Lemma getListColumn_loop_first_missing (t : vtkTable) (key : string)
    (names : list string) :
  getListColumn_loop t key names
  = match first_missing t ((fun n => (key, n)) <$> names) with
    | Some (k, n) => Raise (AssertionError (unable_to_find n k))
    | None => Return (omap (GetColumnByName t) names)
    end.
Proof.
  unfold first_missing.
  induction names as [|n names IH]; [done|].
  cbn [getListColumn_loop fmap list_fmap List.find omap list_omap snd].
  destruct (GetColumnByName t n) as [col|] eqn:Hn.
  - rewrite bool_decide_eq_false_2 by done. rewrite IH.
    by destruct (List.find _ _) as [[k m]|].
  - by rewrite bool_decide_eq_true_2.
Qed.

Lemma _getColumns_first_missing (t : vtkTable) (cm : column_map) :
  _getColumns t cm
  = match first_missing t (configured_names cm) with
    | Some (k, n) => Raise (AssertionError (unable_to_find n k))
    | None => Return (resolved_columns t cm)
    end.
Proof.
  unfold _getColumns, first_missing, configured_names, resolved_columns.
  destruct cm as [root image mask addIms addMasks]. cbn [map_root map_image
    map_mask map_additionalImages map_additionalMasks].
  rewrite !find_app_first.
  assert (Hone : forall key (name : option string),
            getColumn t key name
            = match List.find
                      (fun kn => bool_decide (GetColumnByName t kn.2 = None))
                      (match name with Some n => [(key, n)] | None => [] end)
              with
              | Some (k, n) => Raise (AssertionError (unable_to_find n k))
              | None => Return (name ≫= GetColumnByName t)
              end).
  { intros key [n|]; [|done]. cbn.
    destruct (GetColumnByName t n) eqn:Hn.
    - by rewrite bool_decide_eq_false_2.
    - by rewrite bool_decide_eq_true_2. }
  rewrite !Hone.
  destruct (List.find _ (match root with Some _ => _ | None => _ end))
    as [[k n]|]; [done|].
  destruct (List.find _ (match image with Some _ => _ | None => _ end))
    as [[k n]|]; [done|].
  destruct (List.find _ (match mask with Some _ => _ | None => _ end))
    as [[k n]|]; [done|].
  assert (Hlist : forall key (names : option (list string)),
            getListColumn t key names
            = match List.find
                      (fun kn => bool_decide (GetColumnByName t kn.2 = None))
                      (match names with
                       | Some ns => (fun n => (key, n)) <$> ns
                       | None => []
                       end)
              with
              | Some (k, n) => Raise (AssertionError (unable_to_find n k))
              | None => Return (omap (GetColumnByName t) (default [] names))
              end).
  { intros key [ns|]; [|done]. apply getListColumn_loop_first_missing. }
  rewrite !Hlist.
  destruct (List.find _ (match addIms with Some _ => _ | None => _ end))
    as [[k n]|]; [done|].
  by destruct (List.find _ (match addMasks with Some _ => _ | None => _ end))
    as [[k n]|].
Qed.

(** X2. The constructor needs every column the column map names: when one
    of the names is no column of the table it fails with an
    [AssertionError] that names the first such column, in the order root,
    image, mask, additional images, additional masks, and its key. A root
    that is a directory and no column name fails the same way. *)
Theorem CaseTableIteratorLogic_missing_column (tableNode : vtkMRMLTableNode)
    (cm : column_map) (sc : scene) (text : param_text) (key name : string) :
  first_missing (GetTable tableNode) (configured_names cm) = Some (key, name) ->
  CaseTableIteratorLogic (Some tableNode) cm sc text
  = Raise (AssertionError (unable_to_find name key))
  /\ GetColumnByName (GetTable tableNode) name = None
  /\ (key, name) ∈ configured_names cm.
Proof.
  intros Hfirst. unfold CaseTableIteratorLogic.
  rewrite _getColumns_first_missing, Hfirst. split; [done|].
  apply find_some in Hfirst as [Hin Hnone].
  by apply bool_decide_eq_true in Hnone; apply list_elem_of_In in Hin.
Qed.

Lemma CaseTableIteratorLogic_missing_column_witness :
  CaseTableIteratorLogic (Some demo.tableNode)
    {| map_root := Some "/data/sub"; map_image := Some "image";
       map_mask := Some "nomask"; map_additionalImages := None;
       map_additionalMasks := None |} [] TextEmpty
  = Raise (AssertionError
             (unable_to_find "/data/sub" "root")).
Proof.
  refine (proj1 (CaseTableIteratorLogic_missing_column demo.tableNode _ _ _
                   "root" "/data/sub" _)).
  vm_compute. reflexivity.
Defined.

Lemma resolved_columns_cells (t : vtkTable) (cm : column_map) (it : state) :
  first_missing t (configured_names cm) = None ->
  caseColumns it = resolved_columns t cm ->
  forall idx,
    _getColumnValue it "root" idx = map_root cm ≫= cell t idx
    /\ _getColumnValue it "image" idx = map_image cm ≫= cell t idx
    /\ _getColumnValue it "mask" idx = map_mask cm ≫= cell t idx
    /\ Some <$> _getColumnValue_list it "additionalImages" idx
       = cell t idx <$> default [] (map_additionalImages cm)
    /\ Some <$> _getColumnValue_list it "additionalMasks" idx
       = cell t idx <$> default [] (map_additionalMasks cm).
Proof.
  intros Hall Hcols idx.
  unfold _getColumnValue, _getColumnValue_list, cell. rewrite Hcols.
  assert (Hlist : forall (key : string) (names : list string),
            (forall n, n ∈ names ->
                       (key, n) ∈ configured_names cm) ->
            Some <$> ((fun col => GetValue col idx)
                        <$> omap (GetColumnByName t) names)
            = (fun name => (fun col => GetValue col idx)
                             <$> GetColumnByName t name)
                <$> names).
  { intros key names Hin. induction names as [|n names IH]; [done|].
    cbn. destruct (GetColumnByName t n) as [col|] eqn:Hn.
    - cbn. f_equal. apply IH. intros m Hm. apply Hin. by right.
    - exfalso. unfold first_missing in Hall.
      assert (Hkn : In (key, n) (configured_names cm)).
      { apply list_elem_of_In, Hin. by left. }
      apply (find_none _ _ Hall) in Hkn. cbn [snd] in Hkn.
      by rewrite bool_decide_eq_true_2 in Hkn. }
  change (single_column ?cc "root") with (col_root cc).
  change (single_column ?cc "image") with (col_image cc).
  change (single_column ?cc "mask") with (col_mask cc).
  change (list_columns ?cc "additionalImages")
    with (col_additionalImages cc).
  change (list_columns ?cc "additionalMasks") with (col_additionalMasks cc).
  cbn [resolved_columns col_root col_image col_mask col_additionalImages
       col_additionalMasks].
  split_and!.
  + destruct (map_root cm) as [n|]; [|done]. cbn.
    by destruct (GetColumnByName _ n).
  + destruct (map_image cm) as [n|]; [|done]. cbn.
    by destruct (GetColumnByName _ n).
  + destruct (map_mask cm) as [n|]; [|done]. cbn.
    by destruct (GetColumnByName _ n).
  + apply (Hlist "additionalImages"). intros n Hn.
    unfold configured_names. rewrite !elem_of_app.
    destruct (map_additionalImages cm) as [ns|]; [|by inversion Hn].
    do 3 right. left. apply list_elem_of_fmap. eauto.
  + apply (Hlist "additionalMasks"). intros n Hn.
    unfold configured_names. rewrite !elem_of_app.
    destruct (map_additionalMasks cm) as [ns|]; [|by inversion Hn].
    do 4 right. apply list_elem_of_fmap. eauto.
Qed.


(** X3. When every name of the column map is a column of the table the
    constructor returns an idle iterator: no case open, no listener,
    [caseCount] the number of rows, the directory of the table's file as
    the base of relative paths; and the iterator reads, for each key, the
    cell of the column the map names: nothing for a key the map leaves
    out, the cells of all named columns, in order, for the list keys. *)
Theorem CaseTableIteratorLogic_returns (tableNode : vtkMRMLTableNode)
    (cm : column_map) (sc : scene) (text : param_text) :
  first_missing (GetTable tableNode) (configured_names cm) = None ->
  exists it,
    CaseTableIteratorLogic (Some tableNode) cm sc text = Return it
    /\ currentIdx it = None /\ _eventListeners it = [] /\ calls it = []
    /\ caseCount it = GetNumberOfRows (GetTable tableNode)
    /\ mrmlScene it = sc /\ CaseData it = text
    /\ csv_dir it
       = (table_storage tableNode ≫= GetFileName)
           ≫= (fun f => Some (ospath.dirname f))
    /\ forall idx,
         _getColumnValue it "root" idx
         = map_root cm ≫= cell (GetTable tableNode) idx
         /\ _getColumnValue it "image" idx
            = map_image cm ≫= cell (GetTable tableNode) idx
         /\ _getColumnValue it "mask" idx
            = map_mask cm ≫= cell (GetTable tableNode) idx
         /\ Some <$> _getColumnValue_list it "additionalImages" idx
            = cell (GetTable tableNode) idx
              <$> default [] (map_additionalImages cm)
         /\ Some <$> _getColumnValue_list it "additionalMasks" idx
            = cell (GetTable tableNode) idx
              <$> default [] (map_additionalMasks cm).
Proof.
  intros Hall. unfold CaseTableIteratorLogic.
  rewrite _getColumns_first_missing, Hall. eexists. split; [done|].
  cbn [currentIdx _eventListeners calls caseCount mrmlScene CaseData csv_dir].
  split_and!; try done.
  - by destruct (table_storage tableNode) as [[[f|]]|].
  - by apply resolved_columns_cells.
Qed.

Lemma CaseTableIteratorLogic_returns_witness :
  exists it,
    CaseTableIteratorLogic (Some demo.tableNode) demo.columnMap [] TextEmpty
    = Return it
    /\ _getColumnValue it "image" 1 = Some "b.nii".
Proof.
  destruct (CaseTableIteratorLogic_returns demo.tableNode demo.columnMap []
              TextEmpty) as (it & Hit & _ & _ & _ & _ & _ & _ & _ & Hcells).
  - vm_compute. reflexivity.
  - exists it. split; [exact Hit|].
    destruct (Hcells 1%Z) as (_ & -> & _). vm_compute. reflexivity.
Defined.

(** ** The configuration widget *)

(** X4. [_parseConfig] fails, with an [AssertionError], exactly when the
    image column is left empty; otherwise the map names the image column
    (stripped of white space) and has a key for each of the other fields
    that is not empty, and for no other. A configuration [is_valid]
    accepts is always parsed. *)
Theorem parseConfig_needs_image (w : widget_gui) :
  match _parseConfig w with
  | Return cm =>
      imageSelector w <> ""
      /\ map_image cm = Some (pystr.strip (imageSelector w))
      /\ (map_root cm = None <-> rootSelector w = "")
      /\ (map_mask cm = None <-> maskSelector w = "")
      /\ (map_additionalImages cm = None <-> addImsSelector w = "")
      /\ (map_additionalMasks cm = None <-> addMasksSelector w = "")
  | Raise e => imageSelector w = "" /\ e = AssertionError ""
  end
  /\ (is_valid w = true -> exists cm, _parseConfig w = Return cm).
Proof.
  unfold _parseConfig, is_valid, parse_name, parse_names.
  case_bool_decide as Himage.
  - split; [|eauto].
    cbn [map_image map_root map_mask map_additionalImages map_additionalMasks].
    split_and!; try done; case_bool_decide; naive_solver.
  - split; [done|].
    by rewrite andb_false_r.
Qed.

Lemma length_split (c : ascii) (s : string) :
  length (pystr.split c s) = S (count_char c s).
Proof.
  induction s as [|d s IH]; [done|]. cbn [pystr.split count_char].
  case_bool_decide; cbn [length]; [by rewrite IH|].
  destruct (pystr.split c s) as [|w ws]; [done|]. cbn in *. lia.
Qed.

(** X5. A list field that is not empty gives one column name for each
    piece between commas, stripped of white space: one more name than
    there are commas, so that a doubled or trailing comma gives an empty
    name. *)
Theorem parseConfig_additional_names (w : widget_gui) (cm : column_map) :
  _parseConfig w = Return cm ->
  (addImsSelector w <> "" ->
   exists names,
     map_additionalImages cm = Some names
     /\ names = pystr.strip <$> pystr.split "," (addImsSelector w)
     /\ length names = S (count_char "," (addImsSelector w)))
  /\ (addMasksSelector w <> "" ->
      exists names,
        map_additionalMasks cm = Some names
        /\ names = pystr.strip <$> pystr.split "," (addMasksSelector w)
        /\ length names = S (count_char "," (addMasksSelector w))).
Proof.
  unfold _parseConfig, parse_names. case_bool_decide; [|done].
  intros [= <-].
  cbn [map_additionalImages map_additionalMasks].
  split; intros Hne; rewrite bool_decide_eq_true_2 by done;
    (eexists; split_and!; [done..|]); by rewrite length_fmap, length_split.
Qed.

Lemma parseConfig_additional_names_witness :
  exists cm,
    _parseConfig {| batchTableSelector := None; rootSelector := "";
                    imageSelector := "image"; maskSelector := "";
                    addImsSelector := "t2, flair,"; addMasksSelector := "";
                    chkAutoRedirect := false; chkSaveMasks := false;
                    chkSaveNewMasks := false |} = Return cm
    /\ map_additionalImages cm = Some ["t2"; "flair"; ""].
Proof.
  eexists. split; [reflexivity|].
  edestruct (parseConfig_additional_names
               {| batchTableSelector := None; rootSelector := "";
                  imageSelector := "image"; maskSelector := "";
                  addImsSelector := "t2, flair,"; addMasksSelector := "";
                  chkAutoRedirect := false; chkSaveMasks := false;
                  chkSaveNewMasks := false |}) as [Hims _]; [reflexivity|].
  destruct Hims as (names & _ & _ & _); [discriminate|]. reflexivity.
Defined.

(** X6. An image field of white space only passes [is_valid], being not
    empty, but names the column [""]: on a table without such a column
    [startBatch] fails in the constructor, with root left empty. *)
Theorem startBatch_blank_image_name (w : widget_gui)
    (tableNode : vtkMRMLTableNode) (rd : option string) (l : listener)
    (sc : scene) (text : param_text) :
  batchTableSelector w = Some tableNode ->
  imageSelector w <> "" ->
  pystr.strip (imageSelector w) = "" ->
  rootSelector w = "" ->
  GetColumnByName (GetTable tableNode) "" = None ->
  is_valid w = true
  /\ startBatch w rd l sc text
     = Raise (AssertionError (unable_to_find "" "image")).
Proof.
  intros Htable Himage Hblank Hroot Hnone. split.
  - unfold is_valid. rewrite Htable.
    by rewrite !bool_decide_eq_true_2.
  - unfold startBatch, _parseConfig, CaseTableIteratorLogic.
    rewrite Htable, bool_decide_eq_true_2 by done.
    rewrite _getColumns_first_missing.
    unfold first_missing, configured_names, parse_name.
    cbn [map_root map_image]. rewrite Hroot, Hblank.
    rewrite (bool_decide_eq_false_2 ("" ≠ "")) by (by intros ?).
    cbn [app List.find snd]. by rewrite bool_decide_eq_true_2.
Qed.

Lemma startBatch_blank_image_name_witness :
  startBatch {| batchTableSelector := Some demo.tableNode; rootSelector := "";
                imageSelector := "  "; maskSelector := "";
                addImsSelector := ""; addMasksSelector := "";
                chkAutoRedirect := false; chkSaveMasks := false;
                chkSaveNewMasks := false |} None 7 [] TextEmpty
  = Raise (AssertionError (unable_to_find "" "image")).
Proof.
  refine (proj2 (startBatch_blank_image_name _ demo.tableNode None 7 []
                   TextEmpty _ _ _ _ _)); [reflexivity|discriminate| |..];
    vm_compute; reflexivity.
Defined.

(** X7. [startBatch] returns only for a configuration [is_valid] accepts;
    the iterator it returns is idle, has the new handler as its only
    listener, counts the rows of the chosen table and reads the image
    cells from the column the image field names; the handler carries the
    reader and the three check boxes. *)
Theorem startBatch_returns (w : widget_gui) (rd : option string)
    (l : listener) (sc : scene) (text : param_text) (it : state)
    (h : CsvTableEventHandler) :
  startBatch w rd l sc text = Return (it, h) ->
  is_valid w = true
  /\ _eventListeners it = [l] /\ currentIdx it = None /\ calls it = []
  /\ mrmlScene it = sc /\ CaseData it = text
  /\ h = {| redirect := chkAutoRedirect w; reader := rd;
            saveNew := chkSaveNewMasks w; saveLoaded := chkSaveMasks w |}
  /\ exists tableNode,
       batchTableSelector w = Some tableNode
       /\ caseCount it = GetNumberOfRows (GetTable tableNode)
       /\ forall idx,
            is_Some (_getColumnValue it "image" idx)
            /\ _getColumnValue it "image" idx
               = cell (GetTable tableNode) idx (pystr.strip (imageSelector w)).
Proof.
  unfold startBatch, is_valid.
  destruct (batchTableSelector w) as [tableNode|]; [|done].
  destruct (_parseConfig w) as [cm|] eqn:Hcm; [|done].
  assert (imageSelector w <> ""
          /\ map_image cm = Some (pystr.strip (imageSelector w)))
    as [Himage Hname].
  { unfold _parseConfig in Hcm. case_bool_decide; [|done].
    by injection Hcm as <-. }
  destruct (first_missing (GetTable tableNode) (configured_names cm))
    as [[k n]|] eqn:Hmiss.
  { unfold CaseTableIteratorLogic.
    by rewrite _getColumns_first_missing, Hmiss. }
  unfold CaseTableIteratorLogic.
  rewrite _getColumns_first_missing, Hmiss. intros [= <- <-].
  cbn [set_eventListeners _eventListeners currentIdx calls mrmlScene
         CaseData caseCount].
  split_and!; try done.
  - by rewrite !bool_decide_eq_true_2.
  - exists tableNode. split_and!; [done..|]. intros idx.
    edestruct (resolved_columns_cells (GetTable tableNode) cm)
      as (_ & -> & _); [exact Hmiss|reflexivity|].
    rewrite Hname. cbn.
    split; [|done]. unfold cell.
    assert (Hin : In ("image", pystr.strip (imageSelector w))
                    (configured_names cm)).
    { apply list_elem_of_In. unfold configured_names. rewrite Hname.
      rewrite !elem_of_app. right. left. by left. }
    apply (find_none _ _ Hmiss) in Hin. cbn [snd] in Hin.
    apply bool_decide_eq_false in Hin.
    by destruct (GetColumnByName _ _).
Qed.

Lemma startBatch_returns_witness :
  exists it h,
    startBatch demo.gui (Some "reader") 7 [] TextEmpty = Return (it, h)
    /\ _eventListeners it = [7]
    /\ _getColumnValue it "image" 0 = Some "a.nii".
Proof.
  destruct (startBatch demo.gui (Some "reader") 7 [] TextEmpty)
    as [[it h]|e] eqn:Hstart; [|vm_compute in Hstart; discriminate].
  exists it, h. split; [done|].
  destruct (startBatch_returns _ _ _ _ _ _ _ Hstart)
    as (_ & Hls & _ & _ & _ & _ & _ & tn & Htn & _ & Hcells).
  split; [exact Hls|]. destruct (Hcells 0%Z) as [_ ->].
  injection Htn as <-. vm_compute. reflexivity.
Defined.

(** ** The registry of iterator widgets *)

Lemma registerIteratorWidget_lookup (name mode : string) (widget : pyobject)
    (impl : gmap string pyclass) :
  (IteratorFactory.registerIteratorWidget name widget impl).2 !! mode
  = match impl !! mode with
    | Some c => Some c
    | None => first_accepted mode [(name, widget)]
    end.
Proof.
  unfold IteratorFactory.registerIteratorWidget. cbn [first_accepted].
  case_bool_decide as Hname.
  - cbn [snd]. destruct (impl !! mode) as [c|] eqn:Hmode; [done|].
    destruct widget as [c|]; [|done].
    rewrite (bool_decide_eq_false_2 (name = mode)); [done|].
    intros ->. apply elem_of_dom in Hname as [c' Hc'].
    by rewrite Hmode in Hc'.
  - apply not_elem_of_dom in Hname.
    destruct widget as [c|]; cbn [issubclass].
    + case_bool_decide as Hsub; cbn [snd].
      * destruct (decide (name = mode)) as [->|Hne].
        -- by rewrite lookup_insert_eq, Hname, bool_decide_eq_true_2.
        -- rewrite lookup_insert_ne by done.
           rewrite (bool_decide_eq_false_2 (name = mode)) by done.
           by destruct (impl !! mode).
      * rewrite andb_false_r. by destruct (impl !! mode).
    + cbn [snd]. by destruct (impl !! mode).
Qed.

(** X8. Whatever is registered, in whatever order, the first widget under
    a name stays: [getIteratorWidget] answers the widget the registry had
    under the name to begin with, or else the first class offered under
    it that is a subclass of [IteratorWidgetBase]; later offers, objects
    that are no class and classes that are no subclass never show. The
    names [getImplementationNames] lists are those [getIteratorWidget]
    answers for. *)
Theorem registrations_first_wins (regs : list (string * pyobject))
    (impl : gmap string pyclass) (mode : string) :
  IteratorFactory.getIteratorWidget mode (registrations regs impl)
  = match IteratorFactory.getIteratorWidget mode impl with
    | Some c => Some c
    | None => first_accepted mode regs
    end
  /\ (mode ∈ IteratorFactory.getImplementationNames (registrations regs impl)
      <-> is_Some (IteratorFactory.getIteratorWidget mode
                     (registrations regs impl))).
Proof.
  unfold IteratorFactory.getIteratorWidget,
    IteratorFactory.getImplementationNames. split.
  - revert impl. induction regs as [|[name widget] regs IH]; intros impl.
    + cbn. by destruct (impl !! mode).
    + change (registrations ((name, widget) :: regs) impl)
        with (registrations regs
                (IteratorFactory.registerIteratorWidget name widget impl).2).
      rewrite IH, registerIteratorWidget_lookup.
      destruct (impl !! mode) as [c|]; [done|].
      cbn [first_accepted]. destruct widget as [c|]; [|done].
      by destruct (_ && _).
  - rewrite list_elem_of_fmap. split.
    + intros ([k c] & -> & Hin%elem_of_map_to_list). by exists c.
    + intros [c Hc]. exists (mode, c). by rewrite elem_of_map_to_list.
Qed.

(** ** The parameter node *)

Lemma _findParameterNodeInScene_app
    (ns ms : list ParameterNode.vtkMRMLScriptedModuleNode) :
  ParameterNode._findParameterNodeInScene (ns ++ ms)
  = match ParameterNode._findParameterNodeInScene ns with
    | Some n => Some n
    | None => ParameterNode._findParameterNodeInScene ms
    end.
Proof.
  unfold ParameterNode._findParameterNodeInScene.
  induction ns as [|n ns IH]; [done|]. cbn [app find].
  by destruct (bool_decide _).
Qed.

(** X9. The parameter node is made once: [parameterNode] answers a node
    of the module [SlicerCaseIterator] that is in the scene afterwards;
    when the scene has such a node the scene stays as it is, otherwise
    one node is added, with no case record; and asking again answers the
    same node and adds nothing. *)
Theorem parameterNode_made_once
    (ns : list ParameterNode.vtkMRMLScriptedModuleNode) :
  let node := (ParameterNode.parameterNode ns).1 in
  let ns' := (ParameterNode.parameterNode ns).2 in
  ParameterNode.GetModuleName node = Some "SlicerCaseIterator"
  /\ node ∈ ns'
  /\ ParameterNode.parameterNode ns' = (node, ns')
  /\ match ParameterNode._findParameterNodeInScene ns with
     | Some n => node = n /\ ns' = ns
     | None => ns' = ns ++ [node]
               /\ ParameterNode.GetParameter node "CaseData" = ""
     end.
Proof.
  unfold ParameterNode.parameterNode.
  destruct (ParameterNode._findParameterNodeInScene ns) as [n|] eqn:Hfind;
    cbn [fst snd ParameterNode._createParameterNode].
  - rewrite Hfind. split_and!; try done.
    + apply find_some in Hfind as [_ Hn]. by apply bool_decide_eq_true in Hn.
    + apply find_some in Hfind as [Hin _]. by apply list_elem_of_In.
  - rewrite _findParameterNodeInScene_app, Hfind. split_and!; try done.
    apply elem_of_app. right. by left.
Qed.

(** ** Closing a case *)




(** *** The nodes [closeCase] removes *)








(** ** Loading under new identifiers *)

Lemma length_all_ids (sc : scene) (n : node) :
  n ∈ sc -> String.length (GetID n) <= String.length (demo.all_ids sc).
Proof.
  induction sc as [|m sc IH]; [by intros ?%elem_of_nil|].
  cbn [demo.all_ids foldr]. rewrite string_length_app.
  intros [->|Hin]%elem_of_cons; [lia|]. apply IH in Hin.
  unfold demo.all_ids in Hin. lia.
Qed.

(** A host that names a node by its class and all identifiers of the
    scene gives new identifiers. *)
Lemma fresh_ids_all_ids (H : Host) :
  (forall sc cls,
     newNodeID H sc cls = demo.class_prefix cls +:+ demo.all_ids sc) ->
  fresh_ids H.
Proof.
  intros Hid sc cls. rewrite Hid. split; [by destruct cls|].
  intros (n & Hn & Hin)%list_elem_of_fmap.
  apply length_all_ids in Hin. rewrite <- Hn, string_length_app in Hin.
  destruct cls; cbn in Hin; lia.
Qed.

Lemma update_node_run (f : node -> node) (n : node) (s : state) :
  update_node f n s
  = (Return (f n),
     set_mrmlScene
       ((fun m => if bool_decide (GetID m = GetID n) then f m else m)
          <$> mrmlScene s) s).
Proof. done. Qed.

Lemma update_node_last (f : node -> node) (n : node) (sc : scene) :
  GetID n ∉ scene_ids sc ->
  (fun m => if bool_decide (GetID m = GetID n) then f m else m) <$> (sc ++ [n])
  = sc ++ [f n].
Proof.
  intros Hnew. rewrite fmap_app. cbn [fmap list_fmap].
  rewrite bool_decide_eq_true_2 by done. f_equal.
  induction sc as [|m sc IH]; [done|]. cbn [fmap list_fmap].
  apply not_elem_of_cons in Hnew as [Hm Hsc].
  rewrite bool_decide_eq_false_2 by done. f_equal. by apply IH.
Qed.

Lemma set_mrmlScene_twice (sc sc' : scene) (s : state) :
  set_mrmlScene sc' (set_mrmlScene sc s) = set_mrmlScene sc' s.
Proof. done. Qed.

Lemma appended_refl (s : state) : appended s s [].
Proof.
  split_and!; [by destruct s|by rewrite app_nil_r|constructor|].
  by intros nodeID ?%elem_of_nil.
Qed.

Lemma appended_trans (s s1 s2 : state) (new1 new2 : list node) :
  appended s s1 new1 -> appended s1 s2 new2 -> appended s s2 (new1 ++ new2).
Proof.
  intros (Hs1 & Hsc1 & Hdup1 & Hnew1) (Hs2 & Hsc2 & Hdup2 & Hnew2).
  unfold appended, scene_ids in *. split_and!.
  - by eapply scene_only_trans.
  - by rewrite Hsc2, Hsc1, app_assoc.
  - rewrite fmap_app. apply NoDup_app. split_and!; [done| |done].
    intros nodeID Hin1 Hin2. destruct (Hnew2 _ Hin2) as [_ Hout].
    apply Hout. rewrite Hsc1, fmap_app, elem_of_app. by right.
  - intros nodeID. rewrite fmap_app, elem_of_app.
    intros [Hin|Hin]; [by apply Hnew1|].
    destruct (Hnew2 _ Hin) as [Hne Hout]. split; [done|].
    intros Hold. apply Hout. rewrite Hsc1, fmap_app, elem_of_app. by left.
Qed.

Lemma appended_one (s : state) (n : node) :
  GetID n <> "" -> GetID n ∉ scene_ids (mrmlScene s) ->
  appended s (set_mrmlScene (mrmlScene s ++ [n]) s) [n].
Proof.
  intros Hne Hnew. split_and!; [by destruct s|done| |].
  - apply NoDup_singleton.
  - by intros nodeID ->%list_elem_of_singleton.
Qed.

Section FreshLoaders.

Context (H : Host) (Hfresh : fresh_ids H).

Lemma _loadImageNode_fresh (root fname : option string) (s s' : state)
    (r : result (option node)) :
  _loadImageNode H root fname s = (r, s') ->
  exists o,
    r = Return o /\ appended s s' (option_list o)
    /\ match o with
       | None => s' = s
       | Some n =>
           exists im_path,
             _buildPath H s root fname = Some im_path
             /\ isfile H im_path = true /\ loadVolume_ok H im_path = true
             /\ n = {| GetID := newNodeID H (mrmlScene s)
                                  vtkMRMLScalarVolumeNode;
                       GetClassName := vtkMRMLScalarVolumeNode;
                       GetName :=
                         (ospath.splitext (ospath.basename im_path)).1;
                       GetStorageNode :=
                         Some {| GetFileName := Some im_path |};
                       ReferenceImageGeometry := None |}
       end.
Proof.
  unfold _loadImageNode. rewrite bind_run. cbn [get_state].
  destruct (_buildPath H s root fname) as [im_path|];
    [|intros [= <- <-]; eauto using appended_refl].
  destruct (isfile H im_path) eqn:Hfile; cbn [negb];
    [|intros [= <- <-]; eauto using appended_refl].
  destruct (loadVolume_ok H im_path) eqn:Hload; cbn [negb];
    [|intros [= <- <-]; eauto using appended_refl].
  rewrite bind_run. unfold AddNode at 1. rewrite bind_run, update_node_run.
  cbn [mrmlScene set_mrmlScene mret M_ret].
  destruct (Hfresh (mrmlScene s) vtkMRMLScalarVolumeNode) as [Hne Hnew].
  rewrite update_node_last by done.
  intros [= <- <-]. eexists. split; [done|]. split.
  - rewrite ?set_mrmlScene_twice. apply appended_one; [exact Hne|exact Hnew].
  - by exists im_path.
Qed.

Lemma _loadMaskNode_fresh (root fname : option string) (ref_im : option node)
    (s s' : state) (r : result (option node)) :
  _loadMaskNode H root fname ref_im s = (r, s') ->
  exists o new,
    r = Return o /\ appended s s' new
    /\ (forall m, m ∈ new -> GetClassName m = vtkMRMLSegmentationNode)
    /\ ((o = None /\ new = [] /\ s' = s
         /\ forall ma_path,
              _buildPath H s root fname = Some ma_path ->
              isfile H ma_path = true ->
              if pystr.endswith ".seg" (ospath.splitext ma_path).1
              then loadSegmentation_ok H ma_path = false
              else loadLabelVolume_ok H ma_path = false)
        \/ (exists ma_path n,
              _buildPath H s root fname = Some ma_path
              /\ isfile H ma_path = true
              /\ o = Some n /\ new = [n]
              /\ GetName n = mask_name ma_path
              /\ if pystr.endswith ".seg" (ospath.splitext ma_path).1
                 then GetStorageNode n = Some {| GetFileName := Some ma_path |}
                      /\ ReferenceImageGeometry n = None
                 else GetStorageNode n
                      = Some {| GetFileName :=
                                  Some ((ospath.splitext ma_path).1 +:+ ".seg"
                                        +:+ (ospath.splitext ma_path).2) |}
                      /\ ReferenceImageGeometry n = GetID <$> ref_im
                      /\ ImportLabelmapToSegmentationNode_ok H ma_path = true)
        \/ (exists ma_path m,
              _buildPath H s root fname = Some ma_path
              /\ pystr.endswith ".seg" (ospath.splitext ma_path).1 = false
              /\ ImportLabelmapToSegmentationNode_ok H ma_path = false
              /\ o = None /\ new = [m] /\ GetName m = "")).
Proof.
  unfold _loadMaskNode. rewrite bind_run. cbn [get_state].
  destruct (_buildPath H s root fname) as [ma_path|];
    [|intros [= <- <-]; exists None, []; split_and!;
      [done|apply appended_refl|by intros ? ?%elem_of_nil|by left]].
  destruct (isfile H ma_path) eqn:Hfile; cbn [negb];
    [|intros [= <- <-]; exists None, []; split_and!;
      [done|apply appended_refl|by intros ? ?%elem_of_nil|];
      left; split_and!; [done..|]; intros p [= <-] Hp; congruence].
  rewrite bind_run. unfold mask_name.
  destruct (pystr.endswith ".seg" (ospath.splitext ma_path).1) eqn:Hseg.
  - destruct (loadSegmentation_ok H ma_path) eqn:Hload;
      [|intros [= <- <-]; exists None, []; split_and!;
        [done|apply appended_refl|by intros ? ?%elem_of_nil|];
        left; split_and!; [done..|]; intros p [= <-] _; by rewrite Hseg].
    rewrite bind_run. unfold AddNode at 1. cbn [mret M_ret negb].
    rewrite bind_run, update_node_run. cbn [mrmlScene set_mrmlScene mret M_ret].
    destruct (Hfresh (mrmlScene s) vtkMRMLSegmentationNode) as [Hne Hnew].
    rewrite update_node_last by done.
    intros [= <- <-]. eexists _, [_]. split_and!; [done| | |].
    + rewrite ?set_mrmlScene_twice. apply appended_one; [exact Hne|exact Hnew].
    + by intros m ->%list_elem_of_singleton.
    + right. left. exists ma_path. eexists. rewrite Hseg. by split_and!.
  - destruct (loadLabelVolume_ok H ma_path) eqn:Hload;
      [|intros [= <- <-]; exists None, []; split_and!;
        [done|apply appended_refl|by intros ? ?%elem_of_nil|];
        left; split_and!; [done..|]; intros p [= <-] _; by rewrite Hseg].
    destruct (ospath.splitext ma_path) as [file_base ext] eqn:Hext.
    cbn [fst] in Hseg.
    intros Hrun. unfold AddNode, update_node, modify in Hrun.
    repeat (rewrite bind_run in Hrun;
            cbn [mrmlScene set_mrmlScene mret M_ret negb] in Hrun).
    set (lm := {| GetID := newNodeID H (mrmlScene s) vtkMRMLLabelMapVolumeNode;
                  GetClassName := vtkMRMLLabelMapVolumeNode; GetName := "";
                  GetStorageNode := Some {| GetFileName := Some ma_path |};
                  ReferenceImageGeometry := None |}) in *.
    set (seg := {| GetID := newNodeID H (mrmlScene s ++ [lm])
                              vtkMRMLSegmentationNode;
                   GetClassName := vtkMRMLSegmentationNode; GetName := "";
                   GetStorageNode := None;
                   ReferenceImageGeometry := None |}) in *.
    destruct (Hfresh (mrmlScene s) vtkMRMLLabelMapVolumeNode) as [_ Hnew1].
    destruct (Hfresh (mrmlScene s ++ [lm]) vtkMRMLSegmentationNode)
      as [Hne2 Hnew].
    change (GetID lm ∉ scene_ids (mrmlScene s)) in Hnew1.
    change (GetID seg <> "") in Hne2.
    change (GetID seg ∉ scene_ids (mrmlScene s ++ [lm])) in Hnew.
    assert ((GetID seg ∉ scene_ids (mrmlScene s)) /\ GetID seg <> GetID lm)
      as [Hnew2 Hlm].
    { unfold scene_ids in *. rewrite fmap_app, not_elem_of_app in Hnew.
      destruct Hnew as [? Hlm]. split; [done|].
      by apply not_elem_of_cons in Hlm as [? _]. }
    assert (Hremove : forall seg' : node,
              GetID seg' = GetID seg ->
              RemoveNode (GetID lm) ((mrmlScene s ++ [lm]) ++ [seg'])
              = mrmlScene s ++ [seg']).
    { intros seg' Hid. unfold RemoveNode.
      rewrite !List.filter_app. cbn [List.filter].
      rewrite (bool_decide_eq_true_2 (GetID lm = GetID lm)) by done.
      rewrite (bool_decide_eq_false_2 (GetID seg' = GetID lm))
        by (by rewrite Hid).
      cbn [negb app]. rewrite app_nil_r. f_equal.
      apply forallb_filter_id, forallb_forall.
      intros m Hin%list_elem_of_In. apply negb_true_iff, bool_decide_eq_false.
      intros Hm. apply Hnew1. rewrite <- Hm.
      apply list_elem_of_fmap. by exists m. }
    rewrite (update_node_last _ seg) in Hrun by exact Hnew.
    rewrite (Hremove (SetReferenceImageGeometry ref_im seg)) in Hrun by done.
    rewrite (update_node_last _ (SetReferenceImageGeometry ref_im seg))
      in Hrun by exact Hnew2.
    rewrite !set_mrmlScene_twice in Hrun.
    destruct (ImportLabelmapToSegmentationNode_ok H ma_path) eqn:Himport;
      cbn [negb] in Hrun.
    + rewrite bind_run in Hrun.
      cbn [mrmlScene set_mrmlScene mret M_ret] in Hrun.
      rewrite (update_node_last
                 _ (SetStorageFileName (file_base +:+ ".seg" +:+ ext)
                      (SetReferenceImageGeometry ref_im seg))) in Hrun
        by exact Hnew2.
      rewrite set_mrmlScene_twice in Hrun.
      injection Hrun as <- <-. eexists _, [_]. split_and!; [done| | |].
      * apply appended_one; [exact Hne2|exact Hnew2].
      * by intros m ->%list_elem_of_singleton.
      * right. left. exists ma_path. eexists. rewrite Hext. cbn [fst snd].
        rewrite Hseg. by split_and!.
    + injection Hrun as <- <-. eexists None, [_]. split_and!; [done| | |].
      * apply appended_one; [exact Hne2|exact Hnew2].
      * by intros m ->%list_elem_of_singleton.
      * right. right. exists ma_path. eexists. rewrite Hext.
        by split_and!.
Qed.

End FreshLoaders.

Lemma find_NoDup_fmap {A B} `{EqDecision B} (f : A -> B) (l : list A)
    (x : A) :
  NoDup (f <$> l) -> x ∈ l ->
  List.find (fun y => bool_decide (f y = f x)) l = Some x.
Proof.
  induction l as [|y l IH]; [by intros _ ?%elem_of_nil|].
  cbn [fmap list_fmap List.find]. rewrite NoDup_cons.
  intros [Hy Hdup] [->|Hin]%elem_of_cons.
  - by rewrite bool_decide_eq_true_2.
  - rewrite bool_decide_eq_false_2; [by apply IH|].
    intros Heq. apply Hy. rewrite Heq. apply list_elem_of_fmap. by exists x.
Qed.

Lemma GetNodeByID_appended (s s' : state) (new : list node) (n : node) :
  appended s s' new -> n ∈ new ->
  GetNodeByID (mrmlScene s') (GetID n) = Some n.
Proof.
  intros (_ & -> & Hdup & Hnew) Hin. unfold GetNodeByID.
  assert (Hold : List.find (fun m => bool_decide (GetID m = GetID n))
                   (mrmlScene s) = None).
  { apply GetNodeByID_None. intros m Hm Heq.
    destruct (Hnew (GetID n)) as [_ Hout].
    - apply list_elem_of_fmap. by exists n.
    - apply Hout. rewrite <- Heq. apply list_elem_of_fmap. by exists m. }
  revert Hold. generalize (mrmlScene s). intros sc.
  induction sc as [|m sc IH]; cbn [app List.find].
  - intros _. by apply find_NoDup_fmap.
  - destruct (bool_decide (GetID m = GetID n)); [done|]. exact IH.
Qed.

(** X12. With new identifiers, a load of an image that answers a node
    has added that one node to the end of the scene and changed no other:
    a scalar volume named after the file without its last extension,
    stored under the resolved path, which is an existing file; the node is
    the one its identifier names. A load that answers nothing leaves the
    state as it was. *)
Theorem loadImageNode_adds_one_node (H : Host) (root fname : option string)
    (s s' : state) (o : option node) :
  fresh_ids H ->
  _loadImageNode H root fname s = (Return o, s') ->
  match o with
  | None => s' = s
  | Some n =>
      mrmlScene s' = mrmlScene s ++ [n]
      /\ GetNodeByID (mrmlScene s') (GetID n) = Some n
      /\ GetClassName n = vtkMRMLScalarVolumeNode
      /\ exists im_path,
           _buildPath H s root fname = Some im_path
           /\ isfile H im_path = true
           /\ GetName n = (ospath.splitext (ospath.basename im_path)).1
           /\ GetStorageNode n = Some {| GetFileName := Some im_path |}
  end.
Proof.
  intros Hfresh Hrun.
  apply (_loadImageNode_fresh H Hfresh) in Hrun as (o' & [= <-] & Happ & Ho).
  destruct o as [n|]; [|done].
  destruct Ho as (im_path & Hpath & Hfile & _ & Hn).
  split_and!.
  - by destruct Happ as (_ & -> & _).
  - eapply GetNodeByID_appended; [done|by left].
  - by rewrite Hn.
  - exists im_path. by rewrite Hn.
Qed.

Lemma loadImageNode_adds_one_node_witness :
  let n := {| GetID := "vtkMRMLScalarVolumeNode";
              GetClassName := vtkMRMLScalarVolumeNode; GetName := "a";
              GetStorageNode := Some {| GetFileName := Some "/data/sub/a.nii" |};
              ReferenceImageGeometry := None |} in
  mrmlScene (_loadImageNode demo.fresh_host (Some "sub") (Some "a.nii")
               demo.s0).2 = [n].
Proof.
  intros n.
  refine (proj1 (loadImageNode_adds_one_node demo.fresh_host (Some "sub")
                   (Some "a.nii") demo.s0 _ (Some n) _ _)).
  - by apply fresh_ids_all_ids.
  - vm_compute. reflexivity.
Defined.

(** X13. With new identifiers, a load of a mask that answers a node has
    added that one node to the end of the scene: a segmentation named
    after the file without its last extension, and without [.seg] for a
    segmentation file. For a segmentation file the node is stored under
    the file's path and is bound to no reference image, whatever image was
    passed. For any other file, a labelmap, the node is stored under the
    path with [.seg] put before the extension and takes its geometry from
    the reference image; the labelmap volume is no longer in the scene. *)
Theorem loadMaskNode_adds_one_node (H : Host) (root fname : option string)
    (ref_im : option node) (s s' : state) (n : node) :
  fresh_ids H ->
  _loadMaskNode H root fname ref_im s = (Return (Some n), s') ->
  mrmlScene s' = mrmlScene s ++ [n]
  /\ GetNodeByID (mrmlScene s') (GetID n) = Some n
  /\ GetClassName n = vtkMRMLSegmentationNode
  /\ exists ma_path,
       _buildPath H s root fname = Some ma_path
       /\ isfile H ma_path = true
       /\ GetName n = mask_name ma_path
       /\ if pystr.endswith ".seg" (ospath.splitext ma_path).1
          then GetStorageNode n = Some {| GetFileName := Some ma_path |}
               /\ ReferenceImageGeometry n = None
          else GetStorageNode n
               = Some {| GetFileName :=
                           Some ((ospath.splitext ma_path).1 +:+ ".seg"
                                 +:+ (ospath.splitext ma_path).2) |}
               /\ ReferenceImageGeometry n = GetID <$> ref_im
               /\ ImportLabelmapToSegmentationNode_ok H ma_path = true.
Proof.
  intros Hfresh Hrun.
  apply (_loadMaskNode_fresh H Hfresh) in Hrun
    as (o & new & [= <-] & Happ & Hclass & Hcases).
  destruct Hcases as [(? & _)|[(ma_path & n' & Hpath & Hfile
                                & [= <-] & -> & Hname & Hkind)
                               |(? & ? & _ & _ & _ & ? & _)]]; [done| |done].
  split_and!.
  - by destruct Happ as (_ & -> & _).
  - eapply GetNodeByID_appended; [done|by left].
  - apply Hclass. by left.
  - by exists ma_path.
Qed.

Lemma loadMaskNode_adds_one_node_witness :
  let ref := {| GetID := "im"; GetClassName := vtkMRMLScalarVolumeNode;
                GetName := "b"; GetStorageNode := None;
                ReferenceImageGeometry := None |} in
  let n := {| GetID := "vtkMRMLSegmentationNodevtkMRMLLabelMapVolumeNode";
              GetClassName := vtkMRMLSegmentationNode; GetName := "b-label";
              GetStorageNode :=
                Some {| GetFileName := Some "/data/sub/b-label.seg.nii" |};
              ReferenceImageGeometry := Some "im" |} in
  mrmlScene (_loadMaskNode demo.fresh_host (Some "sub") (Some "b-label.nii")
               (Some ref) demo.s0).2 = [n].
Proof.
  intros ref n.
  refine (proj1 (loadMaskNode_adds_one_node demo.fresh_host (Some "sub")
                   (Some "b-label.nii") (Some ref) demo.s0 _ n _ _)).
  - by apply fresh_ids_all_ids.
  - vm_compute. reflexivity.
Defined.



(** ** A case loaded under new identifiers *)

Lemma load_additional_fresh (load : option string -> M (option node))
    (clean : Prop) (fnames : list string) :
  (forall f s s' r,
     load f s = (r, s') ->
     exists o new,
       r = Return o /\ appended s s' new
       /\ option_list o `sublist_of` new
       /\ (clean -> new = option_list o)) ->
  forall s s' r,
    load_additional load fnames s = (r, s') ->
    exists l new,
      r = Return l /\ appended s s' new /\ l `sublist_of` new
      /\ (clean -> new = l).
Proof.
  intros Hload. induction fnames as [|f fnames IH]; intros s s' r.
  - intros [= <- <-]. exists [], []. by split_and!; [|apply appended_refl|..].
  - cbn [load_additional]. rewrite bind_run.
    destruct (load (Some f) s) as [r1 s1] eqn:H1.
    destruct (Hload _ _ _ _ H1) as (o & new1 & -> & Happ1 & Hsub1 & Hclean1).
    rewrite bind_run.
    destruct (load_additional load fnames s1) as [r2 s2] eqn:H2.
    destruct (IH _ _ _ H2) as (l & new2 & -> & Happ2 & Hsub2 & Hclean2).
    intros [= <- <-]. exists (option_list o ++ l), (new1 ++ new2).
    split_and!.
    + by destruct o.
    + by eapply appended_trans.
    + by apply sublist_app.
    + intros Hc. by rewrite Hclean1, Hclean2.
Qed.

Section FreshCase.

Context (H : Host) (Hfresh : fresh_ids H).

Lemma load_images_fresh (root : option string) (fnames : list string)
    (s s' : state) (r : result (list node)) :
  load_additional (_loadImageNode H root) fnames s = (r, s') ->
  exists l, r = Return l /\ appended s s' l.
Proof.
  intros Hrun.
  apply (load_additional_fresh _ True) in Hrun
    as (l & new & -> & Happ & _ & Hclean).
  - exists l. by rewrite <- Hclean.
  - intros f s1 s2 r1 Hload.
    apply (_loadImageNode_fresh H Hfresh) in Hload as (o & -> & Happ & _).
    by exists o, (option_list o).
Qed.

Lemma load_masks_fresh (root : option string) (fnames : list string)
    (s s' : state) (r : result (list node)) :
  load_additional (fun ma => _loadMaskNode H root ma None) fnames s = (r, s') ->
  exists l new,
    r = Return l /\ appended s s' new /\ l `sublist_of` new
    /\ ((forall p, ImportLabelmapToSegmentationNode_ok H p = true) ->
        new = l).
Proof.
  apply load_additional_fresh. intros f s1 s2 r1 Hload.
  apply (_loadMaskNode_fresh H Hfresh) in Hload
    as (o & new & -> & Happ & _ & Hcases).
  exists o, new. split_and!; [done..| |].
  - destruct Hcases as [(-> & -> & _)|[(? & ? & _ & _ & -> & -> & _)
                                       |(? & ? & _ & _ & _ & -> & -> & _)]];
      [done|done|apply sublist_nil_l].
  - intros Hok.
    destruct Hcases as [(-> & -> & _)|[(? & ? & _ & _ & -> & -> & _)
                                       |(p & ? & _ & _ & Hfail & _)]];
      [done|done|]. rewrite Hok in Hfail. done.
Qed.

Lemma load_main_mask_fresh (s0 : state) (case_idx : Z) (im : option node)
    (s s' : state) (ma : node) :
  load_main_mask H s0 case_idx im s = (Return (Some ma), s') ->
  appended s s' [ma] /\ GetID ma <> "".
Proof.
  unfold load_main_mask.
  destruct (_getColumnValue s0 "mask" case_idx); [|done].
  intros Hload.
  apply (_loadMaskNode_fresh H Hfresh) in Hload
    as (o & new & [= <-] & Happ & _ & Hcases).
  destruct Hcases as [(? & _)|[(? & ? & _ & _ & [= <-] & -> & _)
                               |(? & ? & _ & _ & _ & ? & _)]]; [done| |done].
  split; [done|]. destruct Happ as (_ & _ & _ & Hnew).
  apply Hnew. by left.
Qed.

(** What a [loadCase] that returns has done, under new identifiers:
    [s1] is the state after the case that was open is closed. *)
Lemma loadCase_fresh (case_idx : Z) (s s' : state) :
  loadCase H case_idx s = (Return true, s') ->
  exists s1 s5 im ma add_im add_ma new_ma,
    close_if_open H s = (Return tt, s1)
    /\ appended s1 s5 (im :: add_im ++ ma :: new_ma)
    /\ add_ma `sublist_of` new_ma
    /\ ((forall p, ImportLabelmapToSegmentationNode_ok H p = true) ->
        new_ma = add_ma)
    /\ GetID ma <> ""
    /\ mrmlScene s' = mrmlScene s5
    /\ CaseData s'
       = TextOf {| InputImage_ID := GetID im; InputMask_ID := GetID ma;
                   Additional_InputImage_IDs := GetID <$> add_im;
                   Additional_InputMask_IDs := GetID <$> add_ma |}.
Proof.
  intros Hrun. apply loadCase_course_complete in Hrun.
  inversion Hrun as [| | | |s1 s2 s3 s4 s5 im ma add_im add_ma
                           Hvalid Hclose Him Hadd Hma Haddm d evs Hres Hs'].
  apply (_loadImageNode_fresh H Hfresh) in Him as (o & [= <-] & Happ1 & _).
  apply load_images_fresh in Hadd as (? & [= <-] & Happ2).
  apply load_main_mask_fresh in Hma as [Happ3 Hne].
  apply load_masks_fresh in Haddm
    as (? & new_ma & [= <-] & Happ4 & Hsub & Hclean).
  exists s1, s5, im, ma, add_im, add_ma, new_ma. split_and!; try done.
  pose proof (appended_trans _ _ _ _ _ Happ1
                (appended_trans _ _ _ _ _ Happ2
                   (appended_trans _ _ _ _ _ Happ3 Happ4))) as Happ.
  exact Happ.
Qed.

End FreshCase.

Lemma fmap_GetNodeByID (sc : scene) (l : list node) :
  (forall n, n ∈ l -> GetNodeByID sc (GetID n) = Some n) ->
  GetNodeByID sc <$> (GetID <$> l) = Some <$> l.
Proof.
  induction l as [|n l IH]; [done|]. intros Hall. cbn [fmap list_fmap].
  rewrite (Hall n) by by left. f_equal. apply IH.
  intros m Hm. apply Hall. by right.
Qed.

(** X15. Under new identifiers, after a [loadCase] that returned the
    stored record names the nodes just loaded and nothing else:
    [getCaseData] answers the main image, the main mask and the additional
    nodes themselves, none of them missing, and the identifiers of the
    record are all different, so that no two entries are the same node,
    also when two columns name the same file. *)
Theorem loadCase_record_names_loaded_nodes (H : Host) (s s' : state)
    (case_idx : Z) :
  fresh_ids H ->
  loadCase H case_idx s = (Return true, s') ->
  exists im ma add_im add_ma,
    CaseData s'
    = TextOf {| InputImage_ID := GetID im; InputMask_ID := GetID ma;
                Additional_InputImage_IDs := GetID <$> add_im;
                Additional_InputMask_IDs := GetID <$> add_ma |}
    /\ getCaseData s' = (Some im, Some ma, Some <$> add_im, Some <$> add_ma)
    /\ NoDup (record_ids (CaseData s')).
Proof.
  intros Hfresh Hrun.
  apply (loadCase_fresh H Hfresh) in Hrun
    as (s1 & s5 & im & ma & add_im & add_ma & new_ma & _ & Happ & Hsub
        & _ & Hne & Hscene & Hdata).
  exists im, ma, add_im, add_ma. split; [done|].
  assert (Hfind : forall n, n ∈ im :: add_im ++ ma :: add_ma ->
            GetNodeByID (mrmlScene s') (GetID n) = Some n).
  { intros n Hn. rewrite Hscene. eapply GetNodeByID_appended; [done|].
    revert Hn. rewrite !elem_of_cons, !elem_of_app, !elem_of_cons.
    intros [?|[?|[?|Hn]]]; [auto..|]. do 3 right.
    by eapply elem_of_sublist. }
  split.
  - unfold getCaseData, getCaseData_try. rewrite Hdata.
    cbn [InputImage_ID InputMask_ID Additional_InputImage_IDs
           Additional_InputMask_IDs].
    rewrite bool_decide_eq_true_2 by done.
    rewrite !Hfind, !fmap_GetNodeByID; [done|..].
    + intros n Hn. apply Hfind. rewrite elem_of_cons, elem_of_app,
        elem_of_cons. auto.
    + intros n Hn. apply Hfind. rewrite elem_of_cons, elem_of_app. auto.
    + rewrite elem_of_cons, elem_of_app, elem_of_cons. auto.
    + by left.
  - rewrite Hdata. unfold record_ids.
    cbn [InputImage_ID InputMask_ID Additional_InputImage_IDs
           Additional_InputMask_IDs].
    rewrite bool_decide_eq_true_2 by done.
    destruct Happ as (_ & _ & Hdup & _). unfold scene_ids in Hdup.
    cbn [fmap list_fmap] in Hdup. rewrite fmap_app in Hdup.
    cbn [fmap list_fmap] in Hdup. rewrite <- Permutation_middle in Hdup.
    eapply sublist_NoDup; [exact Hdup|]. cbn [app].
    apply sublist_skip, sublist_skip, sublist_app; [done|].
    by apply fmap_sublist.
Qed.

Lemma loadCase_record_names_loaded_nodes_witness :
  exists im ma add_im add_ma,
    getCaseData (loadCase demo.fresh_host 0 demo.s0).2
    = (Some im, Some ma, Some <$> add_im, Some <$> add_ma).
Proof.
  destruct (loadCase_record_names_loaded_nodes demo.fresh_host demo.s0
              (loadCase demo.fresh_host 0 demo.s0).2 0)
    as (im & ma & add_im & add_ma & _ & Hget & _).
  - by apply fresh_ids_all_ids.
  - vm_compute. reflexivity.
  - by exists im, ma, add_im, add_ma.
Defined.






(** ** What a call leaves of the batch *)

Lemma same_batch_refl (s : state) : same_batch s s.
Proof. split_and!; [done..|]. exists []. by rewrite app_nil_r. Qed.

Lemma same_batch_trans (s1 s2 s3 : state) :
  same_batch s1 s2 -> same_batch s2 s3 -> same_batch s1 s3.
Proof.
  intros (? & ? & ? & ? & evs1 & Hc1) (? & ? & ? & ? & evs2 & Hc2).
  split_and!; [congruence..|]. exists (evs1 ++ evs2).
  by rewrite Hc2, Hc1, app_assoc.
Qed.

Lemma same_batch_scene_only (s s' : state) : scene_only s s' -> same_batch s s'.
Proof.
  intros Hs. apply scene_only_fields in Hs as (? & ? & ? & _ & ? & _ & Hc).
  split_and!; [done..|]. exists []. by rewrite app_nil_r.
Qed.

Lemma closeCase_same_batch (H : Host) (s : state) :
  same_batch s (closeCase H s).2.
Proof.
  rewrite closeCase_run. cbv zeta.
  destruct (notified H CaseAboutToClose (CaseData s) (_eventListeners s))
    as [evs [ev|]]; cbn [fst snd].
  - split_and!; [done..|]. by exists evs.
  - destruct (CaseData s); (split_and!; [done..|]; by exists evs).
Qed.

(** X17. Whatever a call of [loadCase] or [closeCase] ends with, it
    leaves the batch as it was: the directory of the table file, the
    columns, the number of cases and the registered listeners are the
    same, and the callbacks made before are still on record, with those
    of the call after them. A [loadCase] made while no case is open makes
    no [onCaseAboutToClose] callback. *)
Theorem loadCase_keeps_batch (H : Host) (s : state) (case_idx : Z) :
  same_batch s (loadCase H case_idx s).2
  /\ same_batch s (closeCase H s).2
  /\ (currentIdx s = None ->
      forall ev,
        ev ∈ drop (length (calls s)) (calls (loadCase H case_idx s).2) ->
        ev_kind ev = CaseLoaded).
Proof.
  assert (Hclose : forall r s1, close_if_open H s = (r, s1) ->
            same_batch s s1 /\ (currentIdx s = None -> s1 = s)).
  { unfold close_if_open. intros r s1. destruct (currentIdx s).
    - intros Hrun. split; [|done].
      pose proof (closeCase_same_batch H s) as Hb. by rewrite Hrun in Hb.
    - intros [= <- <-]. split; [apply same_batch_refl|done]. }
  destruct (loadCase H case_idx s) as [r s'] eqn:Hrun. cbn [snd].
  apply loadCase_course_complete in Hrun.
  split_and!; [|apply closeCase_same_batch|].
  - inversion Hrun as [Hout| e' s1 _ Hclose'| s1 _ Hclose' _
                       | s1 s2 s3 s4 s5 im add_im add_ma _ Hclose'
                           Him Hadd Hma Haddm
                       | s1 s2 s3 s4 s5 im ma add_im add_ma _ Hclose'
                           Him Hadd Hma Haddm]; subst.
    + apply same_batch_refl.
    + by apply Hclose in Hclose' as [? _].
    + by apply Hclose in Hclose' as [? _].
    + apply Hclose in Hclose' as [Hb _].
      eapply same_batch_trans; [exact Hb|].
      apply same_batch_scene_only. by eapply loads_scene_only.
    + apply Hclose in Hclose' as [Hb _].
      eapply same_batch_trans; [exact Hb|].
      pose proof (loads_scene_only _ _ _ _ _ _ _ _ _ _ _ _ _ _ _
                    Him Hadd Hma Haddm) as Hs.
      apply same_batch_scene_only in Hs as (? & ? & ? & ? & evs' & Hc).
      split_and!; [done..|]. cbn [calls set_calls]. rewrite Hc.
      eexists. by rewrite <- app_assoc.
  - intros Hidle ev.
    inversion Hrun as [Hout| e' s1 _ Hclose'| s1 _ Hclose' _
                       | s1 s2 s3 s4 s5 im add_im add_ma _ Hclose'
                           Him Hadd Hma Haddm
                       | s1 s2 s3 s4 s5 im ma add_im add_ma _ Hclose'
                           Him Hadd Hma Haddm]; subst;
      try pose proof (proj2 (Hclose _ _ Hclose') Hidle) as Hs1.
    + rewrite drop_all. by intros ?%elem_of_nil.
    + unfold close_if_open in Hclose'. by rewrite Hidle in Hclose'.
    + rewrite Hs1, drop_all. by intros ?%elem_of_nil.
    + subst s1.
      pose proof (loads_scene_only _ _ _ _ _ _ _ _ _ _ _ _ _ _ _
                    Him Hadd Hma Haddm) as Hs.
      apply scene_only_fields in Hs as (_ & _ & _ & _ & _ & _ & ->).
      rewrite drop_all. by intros ?%elem_of_nil.
    + subst s1.
      pose proof (loads_scene_only _ _ _ _ _ _ _ _ _ _ _ _ _ _ _
                    Him Hadd Hma Haddm) as Hs.
      apply scene_only_fields in Hs as (_ & _ & _ & _ & _ & _ & Hc).
      cbn [calls set_calls]. rewrite Hc, drop_app_length.
      intros Hin. by apply notified_kind in Hin as [? _].
Qed.

(** ** Saving masks *)

Lemma unique_name_free (fuel : nat) (fs : filesystem) (filename : string)
    (idx : nat) (name : string) :
  unique_name fuel fs filename idx = Saved name ->
  path_exists fs name = false.
Proof.
  revert idx. induction fuel as [|fuel IH]; intros idx; [done|].
  cbn [unique_name]. destruct (pct_format filename (Some idx)); [|done..].
  destruct (path_exists fs s) eqn:Hs; [apply IH|]. by intros [= <-].
Qed.

Lemma save_filename_free (fs : filesystem) (target_dir nodename : string)
    (reader : option string) (name : string) :
  save_filename fs target_dir nodename reader false = Saved name ->
  path_exists fs name = false.
Proof.
  unfold save_filename. rewrite andb_true_r.
  destruct (path_exists fs _) eqn:Hplain; [apply unique_name_free|].
  by intros [= <-].
Qed.

Lemma path_exists_makedirs (d : string) (fs fs' : filesystem) (p : string) :
  makedirs d fs = Return fs' ->
  files fs' = files fs
  /\ (path_exists fs' p = false -> path_exists fs p = false).
Proof.
  unfold makedirs. repeat case_bool_decide; try done. intros [= <-].
  split; [done|]. unfold path_exists. cbn [files directories].
  rewrite !orb_false_iff, !bool_decide_eq_false, not_elem_of_app. tauto.
Qed.

Section SaveFacts.

Context (saveNode_ok : node -> string -> bool).

Lemma saveMask_run (n : option node) (reader : option string)
    (caseData : option node * option node * list (option node)
                * list (option node))
    (fs : filesystem) :
  let r := (saveMask saveNode_ok n reader caseData false fs).1 in
  let fs' := (saveMask saveNode_ok n reader caseData false fs).2 in
  (forall p, path_exists fs p = true -> path_exists fs' p = true)
  /\ match r with
     | Saved name =>
         path_exists fs name = false
         /\ exists m, n = Some m
                      /\ files fs' = files fs
                                     ++ (if saveNode_ok m name then [name]
                                         else [])
     | _ => files fs' = files fs
     end.
Proof.
  cbv zeta. unfold saveMask. destruct n as [m|]; [|done].
  destruct (save_target_dir m caseData) as [target_dir|]; [|done].
  assert ((exists fs1,
             (if isdir fs target_dir then Return fs
              else makedirs target_dir fs) = Return fs1
             /\ files fs1 = files fs
             /\ (forall p, path_exists fs p = true -> path_exists fs1 p = true)
             /\ (forall p, path_exists fs1 p = false ->
                           path_exists fs p = false))
          \/ exists e, (if isdir fs target_dir then Return fs
                        else makedirs target_dir fs) = Raise e)
    as [(fs1 & -> & Hfiles & Hkeep & Hfree)|(e & ->)]; [|..|done].
  { destruct (isdir fs target_dir); [left; by exists fs|].
    destruct (makedirs target_dir fs) as [fs1|e] eqn:Hmk; [left|right; eauto].
    exists fs1. split; [done|].
    pose proof (fun p => path_exists_makedirs _ _ _ p Hmk) as Hp.
    split_and!; [apply (Hp "")| |apply Hp].
    intros p Hex. destruct (path_exists fs1 p) eqn:Hp1; [done|].
    apply Hp in Hp1. congruence. }
  destruct (save_filename fs1 target_dir (GetName m) reader false)
    as [name| | |] eqn:Hname; cbn [fst snd]; try done.
  apply save_filename_free in Hname.
  assert (Hnew : name ∉ files fs1).
  { intros Hin. unfold path_exists in Hname.
    by rewrite bool_decide_eq_true_2 in Hname. }
  rewrite (bool_decide_eq_false_2 _ Hnew), andb_true_r.
  split; [|split; [by apply Hfree|]].
  - intros p Hp%Hkeep. destruct (saveNode_ok m name); [|done].
    unfold path_exists in *. cbn [files directories].
    apply orb_true_iff in Hp as [Hp%bool_decide_eq_true|Hp];
      apply orb_true_iff; [left|by right].
    apply bool_decide_eq_true, elem_of_app. by left.
  - exists m. split; [done|].
    destruct (saveNode_ok m name); cbn [files]; [by rewrite Hfiles|].
    by rewrite app_nil_r.
Qed.

End SaveFacts.


Section CloseFacts.

Context (saveNode_ok : node -> string -> bool).

Lemma save_each_run (reader : option string)
    (caseData : option node * option node * list (option node)
                * list (option node))
    (nodes : list (option node)) (fs : filesystem) :
  let '(saved, r, fs') := save_each saveNode_ok reader caseData nodes fs in
  (forall p, path_exists fs p = true -> path_exists fs' p = true)
  /\ (forall idf, idf ∈ saved -> path_exists fs idf.2 = false)
  /\ (None ∈ nodes -> is_Some r)
  /\ (r = None -> length saved = length nodes)
  /\ (is_Some r -> length saved < length nodes).
Proof.
  revert fs. induction nodes as [|n nodes IH]; intros fs.
  - cbn. split_and!; [done|by intros ? ?%elem_of_nil
                      |by intros ?%elem_of_nil|done|by intros [? ?]].
  - cbn [save_each].
    pose proof (saveMask_run saveNode_ok n reader caseData fs) as Hsave.
    cbv zeta in Hsave.
    destruct (saveMask saveNode_ok n reader caseData false fs) as [r fs1].
    cbn [fst snd] in Hsave. destruct Hsave as [Hkeep Hr].
    destruct r as [name|e| |];
      try (split_and!; [done|by intros ? ?%elem_of_nil|by eauto|done
                        |cbn [length]; lia]).
    destruct Hr as (Hfree & m & -> & _).
    specialize (IH fs1).
    destruct (save_each saveNode_ok reader caseData nodes fs1)
      as [[saved r] fs2].
    destruct IH as (Hkeep' & Hfree' & Hnone & Hlen & Hless). split_and!.
    + auto.
    + intros idf [->|Hin]%elem_of_cons; [done|].
      apply Hfree' in Hin. destruct (path_exists fs idf.2) eqn:Hp; [|done].
      apply Hkeep in Hp. congruence.
    + intros [[=]|Hin]%elem_of_cons. auto.
    + intros Hr. cbn [length]. by rewrite Hlen.
    + intros Hr%Hless. cbn [length]. lia.
Qed.

End CloseFacts.


(** X20. With [saveLoaded] set, an additional mask of the record that is
    no longer in the scene stops the callback: the main mask is saved
    only when it is there, but the additional masks are passed to
    [saveMask] as they are, and a missing one ends the callback at a
    [saveMask] call that does not save, before all nodes are saved and
    the editor is left. *)
Theorem onCaseAboutToClose_missing_additional_mask
    (saveNode_ok : node -> string -> bool) (h : CsvTableEventHandler)
    (caller : state) (selectedModule : string) (fs : filesystem)
    (d : case_record) (nodeID : string) :
  saveLoaded h = true ->
  CaseData caller = TextOf d ->
  nodeID ∈ Additional_InputMask_IDs d ->
  GetNodeByID (mrmlScene caller) nodeID = None ->
  let report :=
    (onCaseAboutToClose saveNode_ok h caller selectedModule fs).1 in
  is_Some (stopped_by report)
  /\ editor_exited report = false
  /\ length (saved_files report) < length (nodes_to_save h caller).
Proof.
  intros Hsave Hdata Hin Hgone. cbv zeta. unfold onCaseAboutToClose.
  pose proof (save_each_run saveNode_ok (reader h) (getCaseData caller)
                (nodes_to_save h caller) fs) as Hrun.
  assert (Hnone : None ∈ nodes_to_save h caller).
  { unfold nodes_to_save, getCaseData, getCaseData_try.
    rewrite Hdata, Hsave. rewrite !elem_of_app. left. right.
    apply list_elem_of_fmap. by exists nodeID. }
  destruct (save_each saveNode_ok (reader h) (getCaseData caller)
              (nodes_to_save h caller) fs) as [[saved r] fs'].
  destruct Hrun as (_ & _ & Hstop & _ & Hless).
  cbn [fst snd saved_files stopped_by editor_exited].
  specialize (Hless (Hstop Hnone)).
  destruct (Hstop Hnone) as [r' ->]. by split_and!.
Qed.

Lemma onCaseAboutToClose_missing_additional_mask_witness :
  let d := {| InputImage_ID := "image"; InputMask_ID := "";
              Additional_InputImage_IDs := [];
              Additional_InputMask_IDs := ["gone"] |} in
  let h := {| redirect := false; reader := None; saveNew := true;
              saveLoaded := true |} in
  is_Some (stopped_by
             (onCaseAboutToClose (fun _ _ => true) h
                (set_CaseData (TextOf d) demo.s0) "SegmentEditor"
                {| files := []; directories := [] |}).1).
Proof.
  intros d h.
  refine (proj1 (onCaseAboutToClose_missing_additional_mask _ h
                   (set_CaseData (TextOf d) demo.s0) _ _ d "gone" _ _ _ _)).
  - reflexivity.
  - reflexivity.
  - by left.
  - vm_compute. reflexivity.
Defined.

(** ** From one case to the next *)


(** X21. A [loadCase] that returns has told every listener, in the
    order of registration and each once per callback: first, when a case
    was open, [onCaseAboutToClose] with the record of that case, the one
    stored before the call; then [onCaseLoaded] with the record of the
    new case, the one stored after it. No other callback is made. *)
Theorem loadCase_tells_listeners (H : Host) (s s' : state) (case_idx : Z) :
  loadCase H case_idx s = (Return true, s') ->
  calls s'
  = calls s
    ++ (if currentIdx s is Some _
        then mk_event CaseAboutToClose (CaseData s) <$> _eventListeners s
        else [])
    ++ (mk_event CaseLoaded (CaseData s') <$> _eventListeners s).
Proof.
  intros Hrun. apply loadCase_course_complete in Hrun.
  inversion Hrun as [| | | |s1 s2 s3 s4 s5 im ma add_im add_ma
                           Hvalid Hclose Him Hadd Hma Haddm d evs Hres Hs'].
  cbn [calls set_calls CaseData set_currentIdx set_CaseData].
  pose proof (loads_scene_only _ _ _ _ _ _ _ _ _ _ _ _ _ _ _
                Him Hadd Hma Haddm) as Hs.
  apply scene_only_fields in Hs as (_ & _ & _ & _ & Hls & _ & Hcalls).
  destruct evs.2 eqn:Hn; [done|]. apply notified_calls in Hn.
  subst evs. rewrite Hn, Hcalls, Hls. clear Hn Hres Hrun.
  unfold close_if_open in Hclose. destruct (currentIdx s).
  - apply closeCase_returns in Hclose
      as (_ & _ & _ & -> & _ & _ & _ & -> & _).
    by rewrite <- app_assoc.
  - by injection Hclose as <-.
Qed.

Lemma loadCase_tells_listeners_witness :
  calls (loadCase demo.host 1 demo.s_open).2
  = calls demo.s_open
    ++ [mk_event CaseAboutToClose (CaseData demo.s_open) 7;
        mk_event CaseLoaded (CaseData (loadCase demo.host 1 demo.s_open).2) 7].
Proof.
  refine (loadCase_tells_listeners demo.host demo.s_open
            (loadCase demo.host 1 demo.s_open).2 1 _).
  vm_compute. reflexivity.
Defined.



